(** * ObjectContainer: a shallow embedding of [src/ObjectContainer.ts]

    The class [ObjectContainer<T>] wraps a plain JavaScript object used as a
    string-keyed map, together with a two-flag configuration that asks for
    keys and/or string values to be lower-cased.

    Layout of this development:
    - [Module JS]: the fragment of the host language the class relies on
      (values, [===], [??], [String.prototype.toLowerCase], and ordinary
      objects with their own properties and their prototype);
    - the class itself, one definition per method, state passed explicitly;
    - an operation language to speak about sequences of calls;
    - lemmas about the object model, then the properties of the class.

    Modelling decisions, all on the host-language side:
    - a string is a sequence of ASCII code units; [toLowerCase] maps
      [A-Z] to [a-z] and leaves every other unit alone;
    - numbers are integers plus [NaN];
    - an object value [VRef a] is a reference to an ordinary, extensible
      object that has no properties of its own and inherits from
      [Object.prototype]; references are compared by identity;
    - an object used as a store is the list of its own enumerable
      properties, in the order [for ... in] and [Object.keys] visit them
      (array indices ascending, then the other keys in creation order),
      together with its prototype: [Object.prototype], an object value, or
      [null];
    - [Object.prototype] is the built-in one, with its methods and its
      [__proto__] accessor; what a read of an inherited property returns is
      a built-in object, kept apart from the values a caller can pass;
    - the container owns its object: the alias handed out by [items()] is
      returned as a value. *)

From Stdlib Require Import String Ascii List Bool ZArith NArith Lia.
Import ListNotations.
Local Open Scope string_scope.

(* ------------------------------------------------------------------ *)
(** ** Host language *)

Module JS.

(** Values a caller can pass and the store can hold. *)
Inductive Value : Type :=
| VUndefined
| VNull
| VBool (b : bool)
| VNum (n : Z)
| VNaN
| VStr (s : string)
| VRef (addr : nat).

(** [v === undefined] *)
Definition is_undefined (v : Value) : bool :=
  match v with VUndefined => true | _ => false end.

(** [typeof v === 'string'] *)
Definition is_string (v : Value) : bool :=
  match v with VStr _ => true | _ => false end.

(** [a === b] *)
Definition strict_eq (a b : Value) : bool :=
  match a, b with
  | VUndefined, VUndefined => true
  | VNull, VNull => true
  | VBool x, VBool y => Bool.eqb x y
  | VNum x, VNum y => Z.eqb x y
  | VStr x, VStr y => String.eqb x y
  | VRef x, VRef y => Nat.eqb x y
  | _, _ => false
  end.

(** A parameter declared [p = dflt]: the default is taken when the
    argument is omitted or is [undefined]. *)
Definition default_param (arg dflt : Value) : Value :=
  match arg with
  | VUndefined => dflt
  | _ => arg
  end.

(** One code unit of [toLowerCase]. *)
Definition lower_ascii (c : ascii) : ascii :=
  let n := N_of_ascii c in
  if (65 <=? n)%N && (n <=? 90)%N then ascii_of_N (n + 32) else c.

(** [s.toLowerCase()] *)
Fixpoint toLowerCase (s : string) : string :=
  match s with
  | EmptyString => EmptyString
  | String c s' => String (lower_ascii c) (toLowerCase s')
  end.

(** *** Own properties *)

(** The own enumerable properties of an object, in enumeration order. *)
Definition Props : Type := list (string * Value).

Definition own_keys (ps : Props) : list string := map fst ps.

Definition own_values (ps : Props) : list Value := map snd ps.

(** The value of an own property, [undefined] when there is none. *)
Fixpoint own_get (ps : Props) (k : string) : Value :=
  match ps with
  | [] => VUndefined
  | (k', v) :: ps' => if String.eqb k' k then v else own_get ps' k
  end.

Fixpoint own_has (ps : Props) (k : string) : bool :=
  match ps with
  | [] => false
  | (k', _) :: ps' => if String.eqb k' k then true else own_has ps' k
  end.

Definition digit_of (c : ascii) : option N :=
  let n := N_of_ascii c in
  if (48 <=? n)%N && (n <=? 57)%N then Some (n - 48)%N else None.

Fixpoint parse_digits (acc : N) (s : string) : option N :=
  match s with
  | EmptyString => Some acc
  | String c s' =>
      match digit_of c with
      | Some d => parse_digits (acc * 10 + d)%N s'
      | None => None
      end
  end.

(** The array index a key denotes, if any: a canonical decimal numeral
    below [2^32 - 1]. *)
Definition array_index (k : string) : option N :=
  match k with
  | EmptyString => None
  | String c rest =>
      match parse_digits 0%N k with
      | Some n =>
          if Ascii.eqb c "0"%char && negb (String.eqb rest EmptyString)
          then None
          else if (n <? 4294967295)%N then Some n else None
      | None => None
      end
  end.

(** Overwrite the value of an existing own property; its position stays. *)
Fixpoint own_update (ps : Props) (k : string) (v : Value) : Props :=
  match ps with
  | [] => []
  | (k', v') :: ps' =>
      if String.eqb k' k then (k', v) :: ps'
      else (k', v') :: own_update ps' k v
  end.

(** Create an array-index property: it goes before the first property
    that is not a smaller array index. *)
Fixpoint own_insert_index (ps : Props) (n : N) (k : string) (v : Value)
  : Props :=
  match ps with
  | [] => [(k, v)]
  | (k', v') :: ps' =>
      match array_index k' with
      | Some n' =>
          if (n' <? n)%N then (k', v') :: own_insert_index ps' n k v
          else (k, v) :: ps
      | None => (k, v) :: ps
      end
  end.

(** Update the own property [k], or create it. *)
Definition own_set (ps : Props) (k : string) (v : Value) : Props :=
  if own_has ps k then own_update ps k v
  else match array_index k with
       | Some n => own_insert_index ps n k v
       | None => (ps ++ [(k, v)])%list
       end.

Definition own_delete (ps : Props) (k : string) : Props :=
  filter (fun kv => negb (String.eqb (fst kv) k)) ps.

(** [k1] is enumerated before [k2] when both are properties of one object
    and [k1] was created first: array indices come first, ascending. *)
Definition key_before (k1 k2 : string) : bool :=
  match array_index k1, array_index k2 with
  | Some a, Some b => (a <? b)%N
  | Some _, None => true
  | None, Some _ => false
  | None, None => true
  end.

Fixpoint canonical_keys (ks : list string) : bool :=
  match ks with
  | [] => true
  | k :: ks' =>
      forallb (key_before k) ks'
      && negb (existsb (String.eqb k) ks')
      && canonical_keys ks'
  end.

(** *** Objects *)

(** The prototype of a store: [Object.prototype], an object value, or
    [null]. *)
Inductive Proto : Type :=
| ProtoObject
| ProtoRef (addr : nat)
| ProtoNull.

Record JSObject : Type := mkObject {
  props : Props;
  proto : Proto
}.

(** An object literal, or any object created by [{}]: its prototype is
    [Object.prototype]. *)
Definition plain (ps : Props) : JSObject :=
  {| props := ps; proto := ProtoObject |}.

(** What a property read returns: a value, or one of the built-in objects
    reached through [Object.prototype]. *)
Inductive Read : Type :=
| Val (v : Value)
| IntrinsicObjectPrototype
| IntrinsicMethod (name : string).

(** The data properties of [Object.prototype]; all are writable and not
    enumerable. *)
Definition object_prototype_methods : list string :=
  ["constructor"; "__defineGetter__"; "__defineSetter__"; "hasOwnProperty";
   "__lookupGetter__"; "__lookupSetter__"; "isPrototypeOf";
   "propertyIsEnumerable"; "toString"; "valueOf"; "toLocaleString"].

Definition is_object_prototype_method (k : string) : bool :=
  existsb (String.eqb k) object_prototype_methods.

(** A read of [k] answered by the prototype chain.  An object value used
    as prototype has no properties of its own, so the chain continues with
    [Object.prototype]; the [__proto__] getter answers the prototype of the
    object the read started from. *)
Definition inherited (p : Proto) (k : string) : Read :=
  match p with
  | ProtoNull => Val VUndefined
  | ProtoObject =>
      if String.eqb k "__proto__" then IntrinsicObjectPrototype
      else if is_object_prototype_method k then IntrinsicMethod k
      else Val VUndefined
  | ProtoRef a =>
      if String.eqb k "__proto__" then Val (VRef a)
      else if is_object_prototype_method k then IntrinsicMethod k
      else Val VUndefined
  end.

(** [Object.keys(o)], also the order of [for (k in o)]: nothing that is
    inherited is enumerable. *)
Definition obj_keys (o : JSObject) : list string := own_keys (props o).

(** [Object.values(o)] *)
Definition obj_values (o : JSObject) : list Value := own_values (props o).

Definition obj_has_own (o : JSObject) (k : string) : bool :=
  own_has (props o) k.

(** [o[k]] for a key [k] that [for (k in o)] produced: the own property. *)
Definition obj_get_own (o : JSObject) (k : string) : Value :=
  own_get (props o) k.

(** [o[k]] *)
Definition obj_get (o : JSObject) (k : string) : Read :=
  if obj_has_own o k then Val (obj_get_own o k)
  else inherited (proto o) k.

(** [a ?? b], [a] being what a read returned. *)
Definition nullish (a : Read) (b : Value) : Read :=
  match a with
  | Val VUndefined | Val VNull => Val b
  | _ => a
  end.

(** [r === undefined] *)
Definition undefined_read (r : Read) : bool :=
  match r with
  | Val v => is_undefined v
  | _ => false
  end.

(** [r === v]: a built-in object is no value a caller can pass. *)
Definition strict_eq_read (r : Read) (v : Value) : bool :=
  match r with
  | Val x => strict_eq x v
  | _ => false
  end.

(** Does [o[k] = v] end in an own data property of [o]?  Always, except
    for the key [__proto__] when [o] has no own property of that name and
    inherits the [__proto__] accessor: then the setter runs. *)
Definition assigns_own (o : JSObject) (k : string) : bool :=
  obj_has_own o k
  || negb (String.eqb k "__proto__")
  || match proto o with ProtoNull => true | _ => false end.

(** The setter of [Object.prototype.__proto__]: [null] or an object
    becomes the prototype, any other value is ignored. *)
Definition set_prototype (o : JSObject) (v : Value) : JSObject :=
  match v with
  | VNull => {| props := props o; proto := ProtoNull |}
  | VRef a => {| props := props o; proto := ProtoRef a |}
  | _ => o
  end.

(** [o[k] = v] *)
Definition obj_set (o : JSObject) (k : string) (v : Value) : JSObject :=
  if assigns_own o k
  then {| props := own_set (props o) k v; proto := proto o |}
  else set_prototype o v.

(** [delete o[k]] *)
Definition obj_delete (o : JSObject) (k : string) : JSObject :=
  {| props := own_delete (props o) k; proto := proto o |}.

(** Does the prototype chain of [o] answer a read of [k]? *)
Definition obj_inherits (o : JSObject) (k : string) : bool :=
  negb (undefined_read (inherited (proto o) k)).

(** Every key of the object is its own lower-case form. *)
Definition keys_lowercase (o : JSObject) : bool :=
  forallb (fun k => String.eqb (toLowerCase k) k) (obj_keys o).

(** A string value that is its own lower-case form, or a value of another
    type. *)
Definition lowercase_value (v : Value) : bool :=
  match v with
  | VStr s => String.eqb (toLowerCase s) s
  | _ => true
  end.

(** Every string value of the object is its own lower-case form. *)
Definition values_lowercase (o : JSObject) : bool :=
  forallb lowercase_value (obj_values o).

(** What the property list of every real object satisfies: no key twice,
    and the keys in enumeration order. *)
Definition obj_canonical (o : JSObject) : bool := canonical_keys (obj_keys o).

End JS.
Import JS.

(* ------------------------------------------------------------------ *)
(** ** The class *)

(** [this.config]: both flags are always set. *)
Record ObjectContainerConfiguration : Type := mkConfiguration {
  convertAllKeysToLowerCase : bool;
  convertAllValuesToLowerCase : bool
}.

(** The [configuration] argument of the constructor as it arrives at run
    time: a field may be left unset. *)
Record ConfigurationArg : Type := mkConfigurationArg {
  argKeysToLowerCase : option bool;
  argValuesToLowerCase : option bool
}.

(** Truthiness of a flag read from the argument. *)
Definition truthy (flag : option bool) : bool :=
  match flag with
  | Some true => true
  | _ => false
  end.


Record ObjectContainer : Type := mkObjectContainer {
  data : JSObject;
  config : ObjectContainerConfiguration
}.

(** The field initialiser of [config]. *)
Definition default_config : ObjectContainerConfiguration :=
  {| convertAllKeysToLowerCase := false;
     convertAllValuesToLowerCase := false |}.

(** [value.toLowerCase()] on a value known to be a string. *)
Definition lower_value (value : Value) : Value :=
  match value with
  | VStr s => VStr (toLowerCase s)
  | _ => value
  end.

(** One turn of the [for ... in] loop of [prepareData]: [acc] is the local
    [data] being filled; [dataKey] is an own key of [this.data], so the
    read [this.data[dataKey]] finds the own property
    (see [obj_get_own_read]). *)
Definition prepareData_body
  (this : ObjectContainer) (acc : JSObject) (dataKey : string) : JSObject :=
  let cfg := this.(config) in
  let value := obj_get_own this.(data) dataKey in
  let key := dataKey in
  let value :=
    if cfg.(convertAllValuesToLowerCase) && is_string value
    then lower_value value else value in
  let key :=
    if cfg.(convertAllKeysToLowerCase)
    then toLowerCase dataKey else key in
  obj_set acc key value.

Definition prepareData (this : ObjectContainer) : ObjectContainer :=
  let cfg := this.(config) in
  if negb cfg.(convertAllValuesToLowerCase)
     && negb cfg.(convertAllKeysToLowerCase)
  then this
  else
    {| data := fold_left (prepareData_body this) (obj_keys this.(data))
                         (plain []);
       config := cfg |}.

(** [new ObjectContainer(data, configuration)]; [None] is an argument that
    was omitted. *)
Definition new_ObjectContainer
  (initial : option JSObject) (configuration : option ConfigurationArg)
  : ObjectContainer :=
  let d := match initial with Some o => o | None => plain [] end in
  let cfg :=
    match configuration with
    | Some conf =>
        let c1 :=
          if truthy conf.(argKeysToLowerCase)
          then {| convertAllKeysToLowerCase := true;
                  convertAllValuesToLowerCase :=
                    default_config.(convertAllValuesToLowerCase) |}
          else default_config in
        if truthy conf.(argValuesToLowerCase)
        then {| convertAllKeysToLowerCase := c1.(convertAllKeysToLowerCase);
                convertAllValuesToLowerCase := true |}
        else c1
    | None => default_config
    end in
  prepareData {| data := d; config := cfg |}.

Definition convertKey (this : ObjectContainer) (key : string) : string :=
  if this.(config).(convertAllKeysToLowerCase) then toLowerCase key else key.

Definition convertValue (this : ObjectContainer) (value : Value) : Value :=
  if this.(config).(convertAllValuesToLowerCase)
     && negb (is_undefined value)
  then (if is_string value then lower_value value else value)
  else value.

(** [has(key, value?)]; an omitted [value] is [VUndefined]. *)
Definition has (this : ObjectContainer) (key : string) (value : Value)
  : bool :=
  let key := convertKey this key in
  let value := convertValue this value in
  if negb (is_undefined value) then
    if undefined_read (obj_get this.(data) key) then false
    else strict_eq_read (obj_get this.(data) key) value
  else negb (undefined_read (obj_get this.(data) key)).

(** [get(key, _default = null)]; an omitted [_default] is [VUndefined]. *)
Definition get (this : ObjectContainer) (key : string) (_default : Value)
  : Read :=
  let _default := default_param _default VNull in
  let key := convertKey this key in
  nullish (obj_get this.(data) key) _default.

(** [put(key, value)]; the result is [this] after the assignment. *)
Definition put (this : ObjectContainer) (key : string) (value : Value)
  : ObjectContainer :=
  let key := convertKey this key in
  let value := convertValue this value in
  {| data := obj_set this.(data) key value; config := this.(config) |}.

Definition putIfNotExists
  (this : ObjectContainer) (key : string) (value : Value)
  : ObjectContainer * bool :=
  if has this key VUndefined then (this, false)
  else
    let key := convertKey this key in
    let value := convertValue this value in
    (put this key value, true).

Definition forget (this : ObjectContainer) (key : string) : ObjectContainer :=
  if negb (has this key VUndefined) then this
  else
    let key := convertKey this key in
    {| data := obj_delete this.(data) key; config := this.(config) |}.

Definition remove (this : ObjectContainer) (key : string) : ObjectContainer :=
  forget this key.

Definition clear (this : ObjectContainer) : ObjectContainer :=
  {| data := plain []; config := this.(config) |}.

Definition items (this : ObjectContainer) : JSObject := this.(data).

Definition all (this : ObjectContainer) : JSObject := items this.

Definition keys (this : ObjectContainer) : list string :=
  obj_keys this.(data).

Definition values (this : ObjectContainer) : list Value :=
  obj_values this.(data).

Definition empty (this : ObjectContainer) : bool :=
  Nat.eqb (length (keys this)) 0.

(** One turn of the [for ... in] loop of [populate]; [key] is an own key
    of [vals], so the read [values[key]] finds the own property
    (see [obj_get_own_read]). *)
Definition populate_body
  (vals : JSObject) (acc : JSObject) (key : string) : JSObject :=
  obj_set acc key (obj_get_own vals key).

Definition populate (this : ObjectContainer) (vals : JSObject)
  : ObjectContainer :=
  {| data := fold_left (populate_body vals) (obj_keys vals) (plain []);
     config := this.(config) |}.

(** The key invariant of the data model: with [convertAllKeysToLowerCase]
    set, every stored key is lower-case. *)
Definition keys_invariant (this : ObjectContainer) : Prop :=
  this.(config).(convertAllKeysToLowerCase) = true ->
  keys_lowercase this.(data) = true.

(** The value invariant of the data model: with
    [convertAllValuesToLowerCase] set, every stored string is lower-case. *)
Definition values_invariant (this : ObjectContainer) : Prop :=
  this.(config).(convertAllValuesToLowerCase) = true ->
  values_lowercase this.(data) = true.

(** What a query on [key] looks at. *)
Definition stored (this : ObjectContainer) (key : string) : Read :=
  obj_get (data this) (convertKey this key).

(** The default in force in a call [get(key, d)]. *)
Definition default_in_force (d : Value) : Value :=
  match d with VUndefined => VNull | _ => d end.

(* ------------------------------------------------------------------ *)
(** ** Sequences of calls *)

(** One call of a public method, with its arguments. *)
Inductive Op : Type :=
| OpPrepareData
| OpHas (key : string) (value : Value)
| OpGet (key : string) (_default : Value)
| OpPut (key : string) (value : Value)
| OpPutIfNotExists (key : string) (value : Value)
| OpForget (key : string)
| OpRemove (key : string)
| OpClear
| OpItems
| OpAll
| OpKeys
| OpValues
| OpEmpty
| OpConvertKey (key : string)
| OpConvertValue (value : Value)
| OpPopulate (vals : JSObject).

(** What the caller gets back. *)
Inductive Result : Type :=
| RThis
| RVoid
| RBool (b : bool)
| RRead (r : Read)
| RValue (v : Value)
| RString (s : string)
| RObject (o : JSObject)
| RKeys (ks : list string)
| RValues (vs : list Value).

Definition call (this : ObjectContainer) (op : Op)
  : ObjectContainer * Result :=
  match op with
  | OpPrepareData => (prepareData this, RVoid)
  | OpHas key value => (this, RBool (has this key value))
  | OpGet key d => (this, RRead (get this key d))
  | OpPut key value => (put this key value, RThis)
  | OpPutIfNotExists key value =>
      let (this', b) := putIfNotExists this key value in (this', RBool b)
  | OpForget key => (forget this key, RThis)
  | OpRemove key => (remove this key, RThis)
  | OpClear => (clear this, RVoid)
  | OpItems => (this, RObject (items this))
  | OpAll => (this, RObject (all this))
  | OpKeys => (this, RKeys (keys this))
  | OpValues => (this, RValues (values this))
  | OpEmpty => (this, RBool (empty this))
  | OpConvertKey key => (this, RString (convertKey this key))
  | OpConvertValue value => (this, RValue (convertValue this value))
  | OpPopulate vals => (populate this vals, RThis)
  end.

Fixpoint run (this : ObjectContainer) (ops : list Op)
  : ObjectContainer * list Result :=
  match ops with
  | [] => (this, [])
  | op :: ops' =>
      let (this', r) := call this op in
      let (final, rs) := run this' ops' in
      (final, r :: rs)
  end.

Definition is_populate (op : Op) : bool :=
  match op with
  | OpPopulate _ => true
  | _ => false
  end.

(** Containers used in the examples below. *)
Definition keys_on : ConfigurationArg :=
  {| argKeysToLowerCase := Some true; argValuesToLowerCase := Some false |}.

Definition values_on : ConfigurationArg :=
  {| argKeysToLowerCase := Some false; argValuesToLowerCase := Some true |}.

Definition both_on : ConfigurationArg :=
  {| argKeysToLowerCase := Some true; argValuesToLowerCase := Some true |}.

Definition values_only (flag : option bool) : ConfigurationArg :=
  {| argKeysToLowerCase := flag; argValuesToLowerCase := Some true |}.

(* ------------------------------------------------------------------ *)
(** ** Lemmas on own properties *)

Section OwnProperties.


Lemma lower_ascii_idem (c : ascii) :
  lower_ascii (lower_ascii c) = lower_ascii c.
Proof.
  destruct c as [b0 b1 b2 b3 b4 b5 b6 b7].
  destruct b0, b1, b2, b3, b4, b5, b6, b7; reflexivity.
Qed.

Lemma toLowerCase_idem (s : string) :
  toLowerCase (toLowerCase s) = toLowerCase s.
Proof.
  induction s as [| c s IH]; simpl.
  - reflexivity.
  - now rewrite lower_ascii_idem, IH.
Qed.

Lemma is_undefined_true (v : Value) :
  is_undefined v = true <-> v = VUndefined.
Proof. destruct v; simpl; split; congruence. Qed.

Lemma is_undefined_false (v : Value) :
  is_undefined v = false <-> v <> VUndefined.
Proof. destruct v; simpl; split; congruence. Qed.

Lemma own_has_In (o : Props) (k : string) :
  own_has o k = true <-> In k (own_keys o).
Proof.
  induction o as [| [k' v'] o IH]; simpl.
  - split; [discriminate | tauto].
  - destruct (String.eqb_spec k' k) as [-> | Hne].
    + tauto.
    + rewrite IH. split; [tauto | intros [H | H]; [congruence | exact H]].
Qed.

Lemma own_get_absent (o : Props) (k : string) :
  own_has o k = false -> own_get o k = VUndefined.
Proof.
  induction o as [| [k' v'] o IH]; simpl; [reflexivity |].
  destruct (String.eqb k' k); [discriminate | exact IH].
Qed.

Lemma own_get_update_same (o : Props) (k : string) (v : Value) :
  own_has o k = true -> own_get (own_update o k v) k = v.
Proof.
  induction o as [| [k' v'] o IH]; simpl; [discriminate |].
  destruct (String.eqb k' k) eqn:E; simpl; rewrite E; auto.
Qed.

Lemma own_get_update_other (o : Props) (k k' : string) (v : Value) :
  k <> k' -> own_get (own_update o k v) k' = own_get o k'.
Proof.
  intros Hne.
  induction o as [| [k0 v0] o IH]; simpl; [reflexivity |].
  destruct (String.eqb_spec k0 k) as [-> | Hk]; simpl.
  - destruct (String.eqb_spec k k'); [contradiction | reflexivity].
  - now rewrite IH.
Qed.

Lemma own_get_insert_index_same
  (o : Props) (n : N) (k : string) (v : Value) :
  own_has o k = false -> own_get (own_insert_index o n k v) k = v.
Proof.
  induction o as [| [k' v'] o IH]; simpl; intros H.
  - now rewrite String.eqb_refl.
  - destruct (String.eqb k' k) eqn:E; [discriminate |].
    destruct (array_index k') as [n' |];
      [destruct (n' <? n)%N |]; simpl;
      rewrite ?E, ?String.eqb_refl; auto.
Qed.

Lemma own_get_insert_index_other
  (o : Props) (n : N) (k k' : string) (v : Value) :
  k <> k' -> own_get (own_insert_index o n k v) k' = own_get o k'.
Proof.
  intros Hne. apply String.eqb_neq in Hne.
  induction o as [| [k0 v0] o IH]; simpl.
  - now rewrite Hne.
  - destruct (array_index k0) as [n0 |];
      [destruct (n0 <? n)%N |]; simpl; rewrite ?Hne, ?IH; reflexivity.
Qed.

Lemma own_get_append_same (o : Props) (k : string) (v : Value) :
  own_has o k = false -> own_get (o ++ [(k, v)])%list k = v.
Proof.
  induction o as [| [k' v'] o IH]; simpl; intros H.
  - now rewrite String.eqb_refl.
  - destruct (String.eqb k' k); [discriminate | auto].
Qed.

Lemma own_get_append_other (o : Props) (k k' : string) (v : Value) :
  k <> k' -> own_get (o ++ [(k, v)])%list k' = own_get o k'.
Proof.
  intros Hne. apply String.eqb_neq in Hne.
  induction o as [| [k0 v0] o IH]; simpl.
  - now rewrite Hne.
  - now rewrite IH.
Qed.

(** Reading back the property just written. *)
Lemma own_get_set_same (o : Props) (k : string) (v : Value) :
  own_get (own_set o k v) k = v.
Proof.
  unfold own_set. destruct (own_has o k) eqn:E.
  - now apply own_get_update_same.
  - destruct (array_index k).
    + now apply own_get_insert_index_same.
    + now apply own_get_append_same.
Qed.

(** A write leaves the other properties alone. *)
Lemma own_get_set_other (o : Props) (k k' : string) (v : Value) :
  k <> k' -> own_get (own_set o k v) k' = own_get o k'.
Proof.
  intros Hne. unfold own_set. destruct (own_has o k).
  - now apply own_get_update_other.
  - destruct (array_index k).
    + now apply own_get_insert_index_other.
    + now apply own_get_append_other.
Qed.

Lemma own_keys_update (o : Props) (k : string) (v : Value) :
  own_keys (own_update o k v) = own_keys o.
Proof.
  induction o as [| [k' v'] o IH]; simpl; [reflexivity |].
  destruct (String.eqb k' k); simpl; [reflexivity | now rewrite IH].
Qed.

Lemma own_keys_insert_index
  (o : Props) (n : N) (k k' : string) (v : Value) :
  In k' (own_keys (own_insert_index o n k v)) <->
  k' = k \/ In k' (own_keys o).
Proof.
  induction o as [| [k0 v0] o IH]; simpl.
  - intuition.
  - destruct (array_index k0) as [n0 |];
      [destruct (n0 <? n)%N |]; simpl; rewrite ?IH; intuition.
Qed.

(** The keys after a write: the old ones and the written one. *)
Lemma own_keys_set (o : Props) (k k' : string) (v : Value) :
  In k' (own_keys (own_set o k v)) <-> k' = k \/ In k' (own_keys o).
Proof.
  unfold own_set. destruct (own_has o k) eqn:E.
  - rewrite own_keys_update. apply own_has_In in E.
    split; [tauto | intros [-> | H]; assumption].
  - destruct (array_index k).
    + apply own_keys_insert_index.
    + unfold own_keys. rewrite map_app, in_app_iff. simpl. intuition.
Qed.

Lemma own_keys_delete (o : Props) (k k' : string) :
  In k' (own_keys (own_delete o k)) -> In k' (own_keys o).
Proof.
  unfold own_keys, own_delete. rewrite !in_map_iff.
  intros [kv [Hk Hin]]. apply filter_In in Hin. exists kv. tauto.
Qed.

Lemma own_get_delete_same (o : Props) (k : string) :
  own_get (own_delete o k) k = VUndefined.
Proof.
  induction o as [| [k' v'] o IH]; simpl; [reflexivity |].
  destruct (String.eqb k' k) eqn:E; simpl; [exact IH |].
  now rewrite E.
Qed.

Lemma own_get_delete_other (o : Props) (k k' : string) :
  k <> k' -> own_get (own_delete o k) k' = own_get o k'.
Proof.
  intros Hne.
  induction o as [| [k0 v0] o IH]; simpl; [reflexivity |].
  destruct (String.eqb_spec k0 k) as [-> | Hk]; simpl.
  - rewrite IH. destruct (String.eqb_spec k k'); [contradiction | reflexivity].
  - now rewrite IH.
Qed.

(** Creating a property that comes after all the others puts it last. *)
Lemma own_insert_index_last
  (o : Props) (n : N) (k : string) (v : Value) :
  array_index k = Some n ->
  (forall k', In k' (own_keys o) -> key_before k' k = true) ->
  own_insert_index o n k v = (o ++ [(k, v)])%list.
Proof.
  intros Hk. induction o as [| [k0 v0] o IH]; simpl; intros Hbefore.
  - reflexivity.
  - pose proof (Hbefore k0 (or_introl eq_refl)) as H0.
    unfold key_before in H0. rewrite Hk in H0.
    destruct (array_index k0) as [n0 |]; [| discriminate].
    rewrite H0. f_equal. apply IH. intros k' Hin. apply Hbefore. now right.
Qed.

Lemma own_set_last (o : Props) (k : string) (v : Value) :
  ~ In k (own_keys o) ->
  (forall k', In k' (own_keys o) -> key_before k' k = true) ->
  own_set o k v = (o ++ [(k, v)])%list.
Proof.
  intros Hfresh Hbefore. unfold own_set.
  destruct (own_has o k) eqn:E.
  - apply own_has_In in E. contradiction.
  - destruct (array_index k) as [n |] eqn:Hk; [| reflexivity].
    now apply own_insert_index_last.
Qed.

Lemma canonical_keys_head (k : string) (ks : list string) :
  canonical_keys (k :: ks) = true ->
  (forall k', In k' ks -> key_before k k' = true) /\
  ~ In k ks /\
  canonical_keys ks = true.
Proof.
  simpl. rewrite !andb_true_iff, negb_true_iff, forallb_forall.
  intros [[Hb Hn] Hc]. repeat split; try assumption.
  intros Hin.
  assert (Hex : existsb (String.eqb k) ks = true).
  { apply existsb_exists. exists k. split; [exact Hin |].
    apply String.eqb_refl. }
  congruence.
Qed.

(** In an object without repeated keys, each property reads as its own
    value. *)
Lemma own_get_all (o : Props) :
  canonical_keys (own_keys o) = true ->
  map (fun k => (k, own_get o k)) (own_keys o) = o.
Proof.
  induction o as [| [k v] o IH]; [reflexivity |].
  intros Hc. apply canonical_keys_head in Hc. destruct Hc as [_ [Hfresh Hc]].
  change (own_keys ((k, v) :: o)) with (k :: own_keys o).
  cbn [map own_get]. rewrite String.eqb_refl. f_equal.
  rewrite <- (IH Hc) at 2.
  apply map_ext_in. intros k' Hin.
  destruct (String.eqb_spec k k') as [-> | Hne]; [contradiction | reflexivity].
Qed.

(** Writing the value a property already has changes nothing. *)
Lemma own_update_noop (o : Props) (k : string) (v : Value) :
  own_get o k = v -> own_update o k v = o.
Proof.
  induction o as [| [k' v'] o IH]; simpl; [reflexivity |].
  destruct (String.eqb k' k); intros H.
  - now subst.
  - now rewrite IH.
Qed.

Lemma own_has_set (o : Props) (k : string) (v : Value) :
  own_has (own_set o k v) k = true.
Proof. apply own_has_In, own_keys_set. now left. Qed.

(** A second write to the same property is an update in place. *)
Lemma own_set_twice (o : Props) (k : string) (v1 v2 : Value) :
  own_set (own_set o k v1) k v2 = own_update (own_set o k v1) k v2.
Proof.
  unfold own_set at 1. now rewrite own_has_set.
Qed.

Lemma own_delete_absent (o : Props) (k : string) :
  ~ In k (own_keys o) -> own_delete o k = o.
Proof.
  induction o as [| [k' v'] o IH]; simpl; intros Hk; [reflexivity |].
  destruct (String.eqb_spec k' k) as [-> | Hne]; simpl.
  - tauto.
  - rewrite IH; [reflexivity | tauto].
Qed.

Lemma own_delete_insert_index
  (o : Props) (n : N) (k : string) (v : Value) :
  ~ In k (own_keys o) -> own_delete (own_insert_index o n k v) k = o.
Proof.
  induction o as [| [k0 v0] o IH]; intros Hk.
  - simpl. now rewrite String.eqb_refl.
  - assert (Hk0 : String.eqb k0 k = false).
    { apply String.eqb_neq. intros ->. apply Hk. now left. }
    assert (Ho : ~ In k (own_keys o)) by (intros H; apply Hk; now right).
    assert (Hhere :
              own_delete ((k, v) :: (k0, v0) :: o) k = (k0, v0) :: o).
    { simpl. rewrite String.eqb_refl, Hk0. simpl. f_equal.
      now apply own_delete_absent. }
    simpl own_insert_index.
    destruct (array_index k0) as [n0 |];
      [destruct (n0 <? n)%N |]; try exact Hhere.
    simpl. rewrite Hk0. simpl. f_equal. now apply IH.
Qed.

(** Creating a property and deleting it gives the object back. *)
Lemma own_delete_set_fresh (o : Props) (k : string) (v : Value) :
  ~ In k (own_keys o) -> own_delete (own_set o k v) k = o.
Proof.
  intros Hk. unfold own_set.
  destruct (own_has o k) eqn:E.
  - apply own_has_In in E. contradiction.
  - destruct (array_index k).
    + now apply own_delete_insert_index.
    + unfold own_delete. rewrite filter_app. simpl.
      rewrite String.eqb_refl. simpl. rewrite app_nil_r.
      now apply own_delete_absent.
Qed.

Lemma own_values_update (o : Props) (k : string) (v v' : Value) :
  In v' (own_values (own_update o k v)) -> v' = v \/ In v' (own_values o).
Proof.
  induction o as [| [k0 v0] o IH]; simpl; [tauto |].
  destruct (String.eqb k0 k); simpl; intuition.
Qed.

Lemma own_values_insert_index
  (o : Props) (n : N) (k : string) (v v' : Value) :
  In v' (own_values (own_insert_index o n k v)) ->
  v' = v \/ In v' (own_values o).
Proof.
  induction o as [| [k0 v0] o IH]; simpl.
  - intuition.
  - destruct (array_index k0) as [n0 |];
      [destruct (n0 <? n)%N |]; simpl; intuition.
Qed.

(** The values after a write: old ones and the written one. *)
Lemma own_values_set (o : Props) (k : string) (v v' : Value) :
  In v' (own_values (own_set o k v)) -> v' = v \/ In v' (own_values o).
Proof.
  unfold own_set. destruct (own_has o k).
  - apply own_values_update.
  - destruct (array_index k).
    + apply own_values_insert_index.
    + unfold own_values. rewrite map_app, in_app_iff. simpl. intuition.
Qed.

Lemma own_values_delete (o : Props) (k : string) (v' : Value) :
  In v' (own_values (own_delete o k)) -> In v' (own_values o).
Proof.
  unfold own_values, own_delete. rewrite !in_map_iff.
  intros [kv [Hv Hin]]. apply filter_In in Hin. exists kv. tauto.
Qed.

(** [===] holds only between equal values. *)
Lemma strict_eq_eq (a b : Value) : strict_eq a b = true -> a = b.
Proof.
  destruct a, b; simpl; try discriminate; intros H; try reflexivity.
  - apply Bool.eqb_prop in H. now subst.
  - apply Z.eqb_eq in H. now subst.
  - apply String.eqb_eq in H. now subst.
  - apply Nat.eqb_eq in H. now subst.
Qed.

(** [===] holds between a value and itself, [NaN] apart. *)
Lemma strict_eq_refl (a : Value) : a <> VNaN -> strict_eq a a = true.
Proof.
  destruct a; simpl; intros H; try reflexivity.
  - apply Bool.eqb_reflx.
  - apply Z.eqb_refl.
  - congruence.
  - apply String.eqb_refl.
  - apply Nat.eqb_refl.
Qed.

Lemma digit_of_bound (c : ascii) (d : N) :
  digit_of c = Some d -> (d < 10)%N.
Proof.
  unfold digit_of.
  destruct ((48 <=? N_of_ascii c)%N && (N_of_ascii c <=? 57)%N) eqn:E;
    [| discriminate].
  apply andb_true_iff in E. destruct E as [E1 E2].
  apply N.leb_le in E1, E2. intros H. injection H as <-. lia.
Qed.

Lemma digit_of_inj (c1 c2 : ascii) (d : N) :
  digit_of c1 = Some d -> digit_of c2 = Some d -> c1 = c2.
Proof.
  unfold digit_of.
  destruct ((48 <=? N_of_ascii c1)%N && (N_of_ascii c1 <=? 57)%N) eqn:E1;
    [| discriminate].
  destruct ((48 <=? N_of_ascii c2)%N && (N_of_ascii c2 <=? 57)%N) eqn:E2;
    [| discriminate].
  apply andb_true_iff in E1, E2. destruct E1 as [A1 _], E2 as [A2 _].
  apply N.leb_le in A1, A2. intros H1 H2.
  injection H1 as H1. injection H2 as H2.
  assert (H : N_of_ascii c1 = N_of_ascii c2) by lia.
  rewrite <- (ascii_N_embedding c1), <- (ascii_N_embedding c2).
  now rewrite H.
Qed.

Lemma parse_digits_bounds (s : string) (acc n : N) :
  parse_digits acc s = Some n ->
  (acc * 10 ^ N.of_nat (String.length s) <= n
   < (acc + 1) * 10 ^ N.of_nat (String.length s))%N.
Proof.
  revert acc. induction s as [| c s IH]; intros acc; simpl parse_digits.
  - intros H. injection H as <-. simpl. lia.
  - destruct (digit_of c) as [d |] eqn:Hd; [| discriminate].
    intros H. apply IH in H. apply digit_of_bound in Hd.
    cbn [String.length]. rewrite Nat2N.inj_succ, N.pow_succ_r'.
    nia.
Qed.

Lemma parse_digits_inj (s1 s2 : string) (acc1 acc2 n : N) :
  String.length s1 = String.length s2 ->
  parse_digits acc1 s1 = Some n ->
  parse_digits acc2 s2 = Some n ->
  acc1 = acc2 /\ s1 = s2.
Proof.
  revert s2 acc1 acc2.
  induction s1 as [| c1 s1 IH]; intros [| c2 s2] acc1 acc2 Hlen;
    try discriminate; simpl parse_digits.
  - intros H1 H2. split; congruence.
  - destruct (digit_of c1) as [d1 |] eqn:Hd1; [| discriminate].
    destruct (digit_of c2) as [d2 |] eqn:Hd2; [| discriminate].
    intros H1 H2. injection Hlen as Hlen.
    destruct (IH s2 _ _ Hlen H1 H2) as [Hacc ->].
    pose proof (digit_of_bound _ _ Hd1). pose proof (digit_of_bound _ _ Hd2).
    assert (acc1 = acc2) by lia. assert (d1 = d2) by lia. subst.
    split; [reflexivity |]. f_equal. eapply digit_of_inj; eassumption.
Qed.

(** What [array_index k = Some n] says about [k]. *)
Lemma array_index_shape (k : string) (n : N) :
  array_index k = Some n ->
  exists c rest d,
    k = String c rest /\ digit_of c = Some d /\
    parse_digits d rest = Some n /\
    (d = 0%N -> rest = EmptyString).
Proof.
  destruct k as [| c rest]; [discriminate |].
  unfold array_index. simpl parse_digits.
  destruct (digit_of c) as [d |] eqn:Hd; [| discriminate].
  rewrite ?N.add_0_l.
  destruct (parse_digits d rest) as [m |] eqn:Hp; [| discriminate].
  destruct (Ascii.eqb c "0" && negb (String.eqb rest "")) eqn:Hz;
    [discriminate |].
  destruct (m <? 4294967295)%N; [| discriminate].
  intros H. injection H as <-.
  exists c, rest, d. repeat split; try assumption.
  intros ->.
  assert (Hc : c = "0"%char).
  { apply (digit_of_inj c "0"%char 0); [exact Hd | reflexivity]. }
  subst c. simpl in Hz. apply negb_false_iff in Hz.
  now apply String.eqb_eq in Hz.
Qed.

Lemma array_index_inj (k1 k2 : string) (n : N) :
  array_index k1 = Some n -> array_index k2 = Some n -> k1 = k2.
Proof.
  intros H1 H2.
  apply array_index_shape in H1, H2.
  destruct H1 as [c1 [r1 [d1 [-> [Hd1 [Hp1 Hz1]]]]]].
  destruct H2 as [c2 [r2 [d2 [-> [Hd2 [Hp2 Hz2]]]]]].
  pose proof (parse_digits_bounds _ _ _ Hp1) as B1.
  pose proof (parse_digits_bounds _ _ _ Hp2) as B2.
  pose proof (digit_of_bound _ _ Hd1) as D1.
  pose proof (digit_of_bound _ _ Hd2) as D2.
  assert (Hlen : String.length r1 = String.length r2).
  { destruct (N.eq_dec d1 0) as [E1 | E1], (N.eq_dec d2 0) as [E2 | E2].
    - now rewrite (Hz1 E1), (Hz2 E2).
    - rewrite (Hz1 E1) in *. subst d1. simpl in B1.
      assert (0 < 10 ^ N.of_nat (String.length r2))%N
        by (apply N.neq_0_lt_0, N.pow_nonzero; lia).
      nia.
    - rewrite (Hz2 E2) in *. subst d2. simpl in B2.
      assert (0 < 10 ^ N.of_nat (String.length r1))%N
        by (apply N.neq_0_lt_0, N.pow_nonzero; lia).
      nia.
    - destruct (Nat.lt_trichotomy (String.length r1) (String.length r2))
        as [L | [L | L]]; [| exact L |]; exfalso.
      + assert (10 ^ N.of_nat (S (String.length r1))
                <= 10 ^ N.of_nat (String.length r2))%N
          by (apply N.pow_le_mono_r; lia).
        rewrite Nat2N.inj_succ, N.pow_succ_r' in H. nia.
      + assert (10 ^ N.of_nat (S (String.length r2))
                <= 10 ^ N.of_nat (String.length r1))%N
          by (apply N.pow_le_mono_r; lia).
        rewrite Nat2N.inj_succ, N.pow_succ_r' in H. nia. }
  destruct (parse_digits_inj _ _ _ _ _ Hlen Hp1 Hp2) as [-> ->].
  f_equal. eapply digit_of_inj; eassumption.
Qed.

Lemma canonical_keys_cons (k : string) (ks : list string) :
  (forall k', In k' ks -> key_before k k' = true) ->
  ~ In k ks ->
  canonical_keys ks = true ->
  canonical_keys (k :: ks) = true.
Proof.
  intros Hb Hn Hc. simpl. rewrite Hc, andb_true_r.
  apply andb_true_iff. split.
  - now apply forallb_forall.
  - apply negb_true_iff.
    destruct (existsb (String.eqb k) ks) eqn:E; [| reflexivity].
    apply existsb_exists in E. destruct E as [x [Hx Hk]].
    apply String.eqb_eq in Hk. subst x. contradiction.
Qed.

Lemma key_before_trans_index (k k0 k' : string) (n n0 : N) :
  array_index k = Some n -> array_index k0 = Some n0 -> (n < n0)%N ->
  key_before k0 k' = true -> key_before k k' = true.
Proof.
  unfold key_before. intros -> ->.
  destruct (array_index k') as [n' |]; [| reflexivity].
  rewrite !N.ltb_lt. lia.
Qed.

Lemma own_canonical_insert_index
  (o : Props) (n : N) (k : string) (v : Value) :
  array_index k = Some n ->
  ~ In k (own_keys o) ->
  canonical_keys (own_keys o) = true ->
  canonical_keys (own_keys (own_insert_index o n k v)) = true.
Proof.
  intros Hk.
  induction o as [| [k0 v0] o IH]; intros Hfresh Hc.
  - reflexivity.
  - change (own_keys ((k0, v0) :: o)) with (k0 :: own_keys o) in *.
    pose proof (canonical_keys_head _ _ Hc) as [Hb [Hn Hc']].
    assert (Hne : k0 <> k) by (intros ->; apply Hfresh; now left).
    assert (Hfresh' : ~ In k (own_keys o))
      by (intros H; apply Hfresh; now right).
    assert (Hfront :
              key_before k k0 = true ->
              (forall k', In k' (own_keys o) -> key_before k k' = true) ->
              canonical_keys (own_keys ((k, v) :: (k0, v0) :: o)) = true).
    { intros H0 Hrest.
      change (own_keys ((k, v) :: (k0, v0) :: o))
        with (k :: k0 :: own_keys o).
      apply canonical_keys_cons; [| exact Hfresh | exact Hc].
      intros k' [<- | Hin]; auto. }
    simpl own_insert_index.
    destruct (array_index k0) as [n0 |] eqn:Hk0.
    + destruct (n0 <? n)%N eqn:Hlt.
      * change (own_keys ((k0, v0) :: own_insert_index o n k v))
          with (k0 :: own_keys (own_insert_index o n k v)).
        apply canonical_keys_cons.
        -- intros k' Hin. apply own_keys_insert_index in Hin.
           destruct Hin as [-> | Hin]; [| now apply Hb].
           unfold key_before. now rewrite Hk0, Hk.
        -- intros Hin. apply own_keys_insert_index in Hin.
           destruct Hin as [-> | Hin]; [now apply Hne | contradiction].
        -- now apply IH.
      * apply N.ltb_ge in Hlt.
        assert (Hlt' : (n < n0)%N).
        { destruct (N.eq_dec n n0) as [<- | Hd]; [| lia].
          exfalso. apply Hne. now apply (array_index_inj k0 k n). }
        apply Hfront.
        -- unfold key_before. rewrite Hk, Hk0. now apply N.ltb_lt.
        -- intros k' Hin.
           apply (key_before_trans_index k k0 k' n n0); auto.
    + apply Hfront.
      * unfold key_before. now rewrite Hk, Hk0.
      * intros k' Hin. specialize (Hb k' Hin).
        unfold key_before in *. rewrite Hk0 in Hb. rewrite Hk.
        destruct (array_index k'); [discriminate | reflexivity].
Qed.

Lemma own_canonical_append (o : Props) (k : string) (v : Value) :
  array_index k = None ->
  ~ In k (own_keys o) ->
  canonical_keys (own_keys o) = true ->
  canonical_keys (own_keys (o ++ [(k, v)]))%list = true.
Proof.
  intros Hk.
  induction o as [| [k0 v0] o IH]; intros Hfresh Hc.
  - reflexivity.
  - change (own_keys (((k0, v0) :: o) ++ [(k, v)])%list)
      with (k0 :: own_keys (o ++ [(k, v)])%list).
    change (own_keys ((k0, v0) :: o)) with (k0 :: own_keys o) in *.
    pose proof (canonical_keys_head _ _ Hc) as [Hb [Hn Hc']].
    assert (Hkeys : own_keys (o ++ [(k, v)])%list
                    = (own_keys o ++ [k])%list).
    { unfold own_keys. now rewrite map_app. }
    apply canonical_keys_cons.
    + rewrite Hkeys. intros k' Hin. apply in_app_iff in Hin.
      destruct Hin as [Hin | [<- | []]]; [now apply Hb |].
      unfold key_before. rewrite Hk. now destruct (array_index k0).
    + rewrite Hkeys. intros Hin. apply in_app_iff in Hin.
      destruct Hin as [Hin | [<- | []]]; [contradiction |].
      apply Hfresh. now left.
    + apply IH; [| exact Hc']. intros H. apply Hfresh. now right.
Qed.

(** A write keeps the property list well formed. *)
Lemma own_canonical_set (o : Props) (k : string) (v : Value) :
  canonical_keys (own_keys o) = true ->
  canonical_keys (own_keys (own_set o k v)) = true.
Proof.
  intros Hc. unfold own_set. destruct (own_has o k) eqn:E.
  - now rewrite own_keys_update.
  - assert (Hfresh : ~ In k (own_keys o)).
    { intros H. apply own_has_In in H. congruence. }
    destruct (array_index k) as [n |] eqn:Hk.
    + now apply own_canonical_insert_index.
    + now apply own_canonical_append.
Qed.

(** So does a delete. *)
Lemma own_canonical_delete (o : Props) (k : string) :
  canonical_keys (own_keys o) = true ->
  canonical_keys (own_keys (own_delete o k)) = true.
Proof.
  induction o as [| [k0 v0] o IH]; intros Hc; [reflexivity |].
  change (own_keys ((k0, v0) :: o)) with (k0 :: own_keys o) in Hc.
  pose proof (canonical_keys_head _ _ Hc) as [Hb [Hn Hc']].
  simpl. destruct (negb (String.eqb k0 k)); [| now apply IH].
  change (own_keys ((k0, v0) :: filter
            (fun kv => negb (String.eqb (fst kv) k)) o))
    with (k0 :: own_keys (own_delete o k)).
  apply canonical_keys_cons.
  - intros k' Hin. apply Hb. now apply own_keys_delete in Hin.
  - intros Hin. apply Hn. now apply own_keys_delete in Hin.
  - now apply IH.
Qed.

Lemma canonical_keys_NoDup (ks : list string) :
  canonical_keys ks = true -> NoDup ks.
Proof.
  induction ks as [| k ks IH]; intros Hc; [constructor |].
  apply canonical_keys_head in Hc. destruct Hc as [_ [Hn Hc]].
  constructor; auto.
Qed.

End OwnProperties.

(* ------------------------------------------------------------------ *)
(** ** Lemmas on objects *)

Section ObjectLemmas.

Lemma obj_has_own_In (o : JSObject) (k : string) :
  obj_has_own o k = true <-> In k (obj_keys o).
Proof. apply own_has_In. Qed.

Lemma obj_has_own_false (o : JSObject) (k : string) :
  obj_has_own o k = false <-> ~ In k (obj_keys o).
Proof.
  rewrite <- obj_has_own_In. destruct (obj_has_own o k); split; congruence.
Qed.

(** A read of an own property finds it. *)
Lemma obj_get_own_read (o : JSObject) (k : string) :
  obj_has_own o k = true -> obj_get o k = Val (obj_get_own o k).
Proof. unfold obj_get. now intros ->. Qed.

Lemma obj_get_not_own (o : JSObject) (k : string) :
  obj_has_own o k = false -> obj_get o k = inherited (proto o) k.
Proof. unfold obj_get. now intros ->. Qed.

Lemma obj_get_own_absent (o : JSObject) (k : string) :
  obj_has_own o k = false -> obj_get_own o k = VUndefined.
Proof. apply own_get_absent. Qed.

(** The only inherited property a lower-case or other key can hit with a
    setter is [__proto__]; every other key is assigned as an own
    property. *)
Lemma assigns_own_other (o : JSObject) (k : string) :
  k <> "__proto__" -> assigns_own o k = true.
Proof.
  intros Hk. unfold assigns_own. apply String.eqb_neq in Hk.
  rewrite Hk. simpl. now rewrite orb_true_r.
Qed.

Lemma assigns_own_false (o : JSObject) (k : string) :
  assigns_own o k = false ->
  k = "__proto__" /\ obj_has_own o k = false /\ proto o <> ProtoNull.
Proof.
  unfold assigns_own. intros H.
  apply orb_false_iff in H. destruct H as [H Hp].
  apply orb_false_iff in H. destruct H as [Ho Hk].
  apply negb_false_iff, String.eqb_eq in Hk.
  repeat split; try assumption.
  intros E. rewrite E in Hp. discriminate.
Qed.

Lemma props_set_prototype (o : JSObject) (v : Value) :
  props (set_prototype o v) = props o.
Proof. now destruct v. Qed.

(** An assignment either writes an own property or leaves the own
    properties alone. *)
Lemma props_obj_set (o : JSObject) (k : string) (v : Value) :
  props (obj_set o k v) =
  if assigns_own o k then own_set (props o) k v else props o.
Proof.
  unfold obj_set. destruct (assigns_own o k); [reflexivity |].
  apply props_set_prototype.
Qed.

Lemma proto_obj_set (o : JSObject) (k : string) (v : Value) :
  assigns_own o k = true -> proto (obj_set o k v) = proto o.
Proof. unfold obj_set. now intros ->. Qed.

Lemma own_has_set_other (ps : Props) (k k' : string) (v : Value) :
  k <> k' -> own_has (own_set ps k v) k' = own_has ps k'.
Proof.
  intros Hne.
  destruct (own_has ps k') eqn:E.
  - apply own_has_In. apply own_keys_set. right. now apply own_has_In.
  - destruct (own_has (own_set ps k v) k') eqn:E'; [| reflexivity].
    apply own_has_In, own_keys_set in E'.
    destruct E' as [-> | E']; [contradiction |].
    apply own_has_In in E'. congruence.
Qed.


Lemma own_has_delete_other (ps : Props) (k k' : string) :
  k <> k' -> own_has (own_delete ps k) k' = own_has ps k'.
Proof.
  intros Hne.
  induction ps as [| [k0 v0] ps IH]; simpl; [reflexivity |].
  destruct (String.eqb_spec k0 k) as [-> | Hk]; simpl.
  - rewrite IH. destruct (String.eqb_spec k k'); [contradiction | reflexivity].
  - now rewrite IH.
Qed.

(** Reading back the property just assigned. *)
Lemma obj_get_set_same (o : JSObject) (k : string) (v : Value) :
  assigns_own o k = true -> obj_get (obj_set o k v) k = Val v.
Proof.
  intros Ha. unfold obj_set. rewrite Ha.
  unfold obj_get, obj_has_own, obj_get_own. cbn [props].
  now rewrite own_has_set, own_get_set_same.
Qed.

(** An assignment that writes an own property leaves every other read
    alone. *)
Lemma obj_get_set_other (o : JSObject) (k k' : string) (v : Value) :
  assigns_own o k = true -> k <> k' ->
  obj_get (obj_set o k v) k' = obj_get o k'.
Proof.
  intros Ha Hne. unfold obj_set. rewrite Ha.
  unfold obj_get, obj_has_own, obj_get_own. cbn [props proto].
  now rewrite own_has_set_other, own_get_set_other.
Qed.

(** Own properties other than the one assigned keep their value, whatever
    the assignment does. *)
Lemma obj_get_own_set_other (o : JSObject) (k k' : string) (v : Value) :
  k <> k' -> obj_get_own (obj_set o k v) k' = obj_get_own o k'.
Proof.
  intros Hne. unfold obj_get_own. rewrite props_obj_set.
  destruct (assigns_own o k); [| reflexivity].
  now apply own_get_set_other.
Qed.

Lemma obj_get_own_set_same (o : JSObject) (k : string) (v : Value) :
  assigns_own o k = true -> obj_get_own (obj_set o k v) k = v.
Proof.
  intros Ha. unfold obj_get_own. rewrite props_obj_set, Ha.
  apply own_get_set_same.
Qed.

Lemma obj_has_own_set (o : JSObject) (k : string) (v : Value) :
  assigns_own o k = true -> obj_has_own (obj_set o k v) k = true.
Proof.
  intros Ha. unfold obj_has_own. rewrite props_obj_set, Ha.
  apply own_has_set.
Qed.

Lemma assigns_own_set (o : JSObject) (k : string) (v : Value) :
  assigns_own o k = true -> assigns_own (obj_set o k v) k = true.
Proof.
  intros Ha. unfold assigns_own at 1.
  now rewrite obj_has_own_set.
Qed.

(** The keys after an assignment: old ones, and at most the assigned one. *)
Lemma obj_keys_set (o : JSObject) (k k' : string) (v : Value) :
  In k' (obj_keys (obj_set o k v)) -> k' = k \/ In k' (obj_keys o).
Proof.
  unfold obj_keys. rewrite props_obj_set.
  destruct (assigns_own o k); [| tauto].
  apply own_keys_set.
Qed.

Lemma obj_keys_set_assigned (o : JSObject) (k k' : string) (v : Value) :
  assigns_own o k = true ->
  (In k' (obj_keys (obj_set o k v)) <-> k' = k \/ In k' (obj_keys o)).
Proof.
  intros Ha. unfold obj_keys. rewrite props_obj_set, Ha.
  apply own_keys_set.
Qed.

Lemma obj_keys_set_kept (o : JSObject) (k k' : string) (v : Value) :
  In k' (obj_keys o) -> In k' (obj_keys (obj_set o k v)).
Proof.
  unfold obj_keys. rewrite props_obj_set.
  destruct (assigns_own o k); [| tauto].
  intros H. apply own_keys_set. now right.
Qed.

Lemma obj_values_set (o : JSObject) (k : string) (v v' : Value) :
  In v' (obj_values (obj_set o k v)) -> v' = v \/ In v' (obj_values o).
Proof.
  unfold obj_values. rewrite props_obj_set.
  destruct (assigns_own o k); [| tauto].
  apply own_values_set.
Qed.

Lemma obj_keys_delete (o : JSObject) (k k' : string) :
  In k' (obj_keys (obj_delete o k)) -> In k' (obj_keys o).
Proof. apply own_keys_delete. Qed.

Lemma obj_values_delete (o : JSObject) (k : string) (v' : Value) :
  In v' (obj_values (obj_delete o k)) -> In v' (obj_values o).
Proof. apply own_values_delete. Qed.


Lemma obj_get_delete_other (o : JSObject) (k k' : string) :
  k <> k' -> obj_get (obj_delete o k) k' = obj_get o k'.
Proof.
  intros Hne. unfold obj_get, obj_delete, obj_has_own, obj_get_own.
  cbn [props proto].
  now rewrite own_has_delete_other, own_get_delete_other.
Qed.

(** A key that reads as [undefined] is assigned as an own property. *)
Lemma undefined_read_assigns_own (o : JSObject) (k : string) :
  undefined_read (obj_get o k) = true -> assigns_own o k = true.
Proof.
  unfold obj_get, assigns_own.
  destruct (obj_has_own o k); [reflexivity |]. simpl.
  destruct (proto o); simpl; try (intros _; now rewrite orb_true_r);
    destruct (String.eqb k "__proto__"); simpl; try discriminate; auto.
Qed.

(** After assigning a value other than [undefined] and [null], the key
    does not read as [undefined]. *)
Lemma obj_get_set_defined (o : JSObject) (k : string) (v : Value) :
  v <> VUndefined -> v <> VNull ->
  undefined_read (obj_get (obj_set o k v) k) = false.
Proof.
  intros Hu Hn. destruct (assigns_own o k) eqn:Ha.
  - rewrite obj_get_set_same by exact Ha. simpl.
    now apply is_undefined_false.
  - apply assigns_own_false in Ha. destruct Ha as [-> [Hown Hp]].
    unfold obj_set, assigns_own. rewrite Hown. simpl.
    destruct (proto o) eqn:Ep; try contradiction; simpl;
      destruct v; try contradiction;
      unfold obj_get, obj_has_own; cbn [props proto set_prototype];
      unfold obj_has_own in Hown; rewrite ?Hown, ?Ep; reflexivity.
Qed.

(** Assigning twice the same value is assigning it once, when the
    assignment writes an own property. *)
Lemma obj_set_same_twice (o : JSObject) (k : string) (v : Value) :
  assigns_own o k = true -> obj_set (obj_set o k v) k v = obj_set o k v.
Proof.
  intros Ha. unfold obj_set at 1. rewrite assigns_own_set by exact Ha.
  unfold obj_set. rewrite Ha. cbn [props proto]. f_equal.
  rewrite own_set_twice. apply own_update_noop, own_get_set_same.
Qed.

(** A second assignment to the key keeps the key list. *)
Lemma obj_keys_set_twice (o : JSObject) (k : string) (v1 v2 : Value) :
  assigns_own o k = true ->
  obj_keys (obj_set (obj_set o k v1) k v2) = obj_keys (obj_set o k v1).
Proof.
  intros Ha. unfold obj_set at 1. rewrite assigns_own_set by exact Ha.
  unfold obj_set. rewrite Ha. unfold obj_keys. cbn [props].
  rewrite own_set_twice. apply own_keys_update.
Qed.

(** Creating an own property and deleting it gives the object back. *)
Lemma obj_delete_set_fresh (o : JSObject) (k : string) (v : Value) :
  assigns_own o k = true -> ~ In k (obj_keys o) ->
  obj_delete (obj_set o k v) k = o.
Proof.
  intros Ha Hk. unfold obj_set. rewrite Ha.
  unfold obj_delete. cbn [props proto].
  rewrite own_delete_set_fresh by exact Hk. now destruct o.
Qed.

Lemma obj_canonical_set (o : JSObject) (k : string) (v : Value) :
  obj_canonical o = true -> obj_canonical (obj_set o k v) = true.
Proof.
  unfold obj_canonical, obj_keys. rewrite props_obj_set.
  destruct (assigns_own o k); [| tauto].
  apply own_canonical_set.
Qed.

Lemma obj_canonical_delete (o : JSObject) (k : string) :
  obj_canonical o = true -> obj_canonical (obj_delete o k) = true.
Proof. apply own_canonical_delete. Qed.

Lemma keys_lowercase_spec (o : JSObject) :
  keys_lowercase o = true <->
  forall k, In k (obj_keys o) -> toLowerCase k = k.
Proof.
  unfold keys_lowercase. rewrite forallb_forall.
  split; intros H k Hk; specialize (H k Hk); now apply String.eqb_eq.
Qed.

Lemma keys_lowercase_set (o : JSObject) (k : string) (v : Value) :
  keys_lowercase o = true -> toLowerCase k = k ->
  keys_lowercase (obj_set o k v) = true.
Proof.
  rewrite !keys_lowercase_spec. intros Ho Hk k' Hin.
  apply obj_keys_set in Hin. destruct Hin as [-> | Hin]; auto.
Qed.

Lemma keys_lowercase_delete (o : JSObject) (k : string) :
  keys_lowercase o = true -> keys_lowercase (obj_delete o k) = true.
Proof.
  rewrite !keys_lowercase_spec. intros Ho k' Hin.
  apply Ho. now apply obj_keys_delete in Hin.
Qed.

Lemma values_lowercase_spec (o : JSObject) :
  values_lowercase o = true <->
  forall v, In v (obj_values o) -> lowercase_value v = true.
Proof. unfold values_lowercase. apply forallb_forall. Qed.

Lemma values_lowercase_set (o : JSObject) (k : string) (v : Value) :
  values_lowercase o = true -> lowercase_value v = true ->
  values_lowercase (obj_set o k v) = true.
Proof.
  rewrite !values_lowercase_spec. intros Ho Hv v' Hin.
  apply obj_values_set in Hin. destruct Hin as [-> | Hin]; auto.
Qed.

Lemma values_lowercase_delete (o : JSObject) (k : string) :
  values_lowercase o = true -> values_lowercase (obj_delete o k) = true.
Proof.
  rewrite !values_lowercase_spec. intros Ho v' Hin.
  apply Ho. now apply obj_values_delete in Hin.
Qed.

Lemma obj_get_in_values (o : JSObject) (k : string) :
  In k (obj_keys o) -> In (obj_get_own o k) (obj_values o).
Proof.
  unfold obj_keys, obj_get_own, obj_values.
  induction (props o) as [| [k0 v0] ps IH]; simpl; [tauto |].
  destruct (String.eqb_spec k0 k) as [-> | Hne].
  - now left.
  - intros [H | H]; [contradiction | right; now apply IH].
Qed.

End ObjectLemmas.

(* ------------------------------------------------------------------ *)
(** ** Lemmas on loops of assignments *)

Section Loops.

Variable g : string -> string.
Variable f : string -> Value.

(** Below, the loop assigns [f a] to the key [g a] for each [a] visited. *)

Lemma write_loop_own_skipped (ks : list string) (acc : JSObject) (k : string) :
  (forall a, In a ks -> g a <> k) ->
  obj_get_own (fold_left (fun o a => obj_set o (g a) (f a)) ks acc) k =
  obj_get_own acc k.
Proof.
  revert acc. induction ks as [| a ks IH]; simpl; intros acc Hk.
  - reflexivity.
  - rewrite IH by (intros b Hb; apply Hk; now right).
    apply obj_get_own_set_other. apply Hk. now left.
Qed.

Lemma write_loop_keys_kept (ks : list string) (acc : JSObject) (k : string) :
  In k (obj_keys acc) ->
  In k (obj_keys (fold_left (fun o a => obj_set o (g a) (f a)) ks acc)).
Proof.
  revert acc. induction ks as [| a ks IH]; simpl; intros acc Hk.
  - exact Hk.
  - apply IH. now apply obj_keys_set_kept.
Qed.

Lemma write_loop_keys (ks : list string) (acc : JSObject) (k : string) :
  In k (obj_keys (fold_left (fun o a => obj_set o (g a) (f a)) ks acc)) ->
  (exists a, In a ks /\ g a = k) \/ In k (obj_keys acc).
Proof.
  revert acc. induction ks as [| a ks IH]; simpl; intros acc Hk.
  - now right.
  - apply IH in Hk. destruct Hk as [[b [Hb Hg]] | Hk].
    + left. exists b. tauto.
    + apply obj_keys_set in Hk. destruct Hk as [-> | Hk].
      * left. exists a. tauto.
      * now right.
Qed.

(** A key other than [__proto__] that the loop writes is a key of the
    result. *)
Lemma write_loop_key_written (ks : list string) (acc : JSObject) (a : string) :
  In a ks -> g a <> "__proto__" ->
  In (g a) (obj_keys (fold_left (fun o a => obj_set o (g a) (f a)) ks acc)).
Proof.
  revert acc. induction ks as [| b ks IH]; simpl; intros acc Hin Hg.
  - contradiction.
  - destruct Hin as [-> | Hin].
    + apply write_loop_keys_kept.
      apply obj_keys_set_assigned; [now apply assigns_own_other | now left].
    + now apply IH.
Qed.

(** The last key visited that maps to a property other than [__proto__]
    decides its value. *)
Lemma write_loop_own_last
  (before after : list string) (a : string) (acc : JSObject) :
  g a <> "__proto__" ->
  (forall b, In b after -> g b <> g a) ->
  obj_get_own (fold_left (fun o a => obj_set o (g a) (f a))
                         (before ++ a :: after) acc) (g a) = f a.
Proof.
  intros Hg Hafter. rewrite fold_left_app. simpl.
  rewrite write_loop_own_skipped by assumption.
  apply obj_get_own_set_same. now apply assigns_own_other.
Qed.

Lemma write_loop_values (ks : list string) (acc : JSObject) :
  (forall a, lowercase_value (f a) = true) ->
  values_lowercase acc = true ->
  values_lowercase (fold_left (fun o a => obj_set o (g a) (f a)) ks acc) = true.
Proof.
  intros Hf. revert acc. induction ks as [| a ks IH]; simpl; intros acc Hacc.
  - exact Hacc.
  - apply IH. now apply values_lowercase_set.
Qed.

Lemma write_loop_lowercase_keys (ks : list string) (acc : JSObject) :
  (forall a, toLowerCase (g a) = g a) ->
  keys_lowercase acc = true ->
  keys_lowercase (fold_left (fun o a => obj_set o (g a) (f a)) ks acc) = true.
Proof.
  intros Hg. revert acc. induction ks as [| a ks IH]; simpl; intros acc Hacc.
  - exact Hacc.
  - apply IH. now apply keys_lowercase_set.
Qed.

Lemma write_loop_canonical (ks : list string) (acc : JSObject) :
  obj_canonical acc = true ->
  obj_canonical (fold_left (fun o a => obj_set o (g a) (f a)) ks acc) = true.
Proof.
  revert acc. induction ks as [| a ks IH]; simpl; intros acc Hacc.
  - exact Hacc.
  - apply IH. now apply obj_canonical_set.
Qed.

(** When no key written is [__proto__], the loop only writes own
    properties and the prototype stays. *)
Lemma write_loop_plain (ks : list string) (acc : JSObject) :
  (forall a, In a ks -> g a <> "__proto__") ->
  fold_left (fun o a => obj_set o (g a) (f a)) ks acc =
  {| props := fold_left (fun ps a => own_set ps (g a) (f a)) ks (props acc);
     proto := proto acc |}.
Proof.
  revert acc. induction ks as [| a ks IH]; simpl; intros acc Hk.
  - now destruct acc.
  - rewrite IH by (intros b Hb; apply Hk; now right).
    unfold obj_set.
    rewrite assigns_own_other by (apply Hk; now left).
    reflexivity.
Qed.

End Loops.

Section CopyLoops.

Variable f : string -> Value.

(** On keys that come in enumeration order and are new to the accumulator,
    a loop that writes each key under itself appends one property per
    key. *)
Lemma own_loop_appends (ks : list string) (acc : Props) :
  canonical_keys ks = true ->
  (forall k' k, In k' (own_keys acc) -> In k ks ->
                key_before k' k = true /\ k' <> k) ->
  fold_left (fun ps k => own_set ps k (f k)) ks acc =
  (acc ++ map (fun k => (k, f k)) ks)%list.
Proof.
  revert acc. induction ks as [| a ks IH]; intros acc Hc Hacc.
  - simpl. now rewrite app_nil_r.
  - apply canonical_keys_head in Hc. destruct Hc as [Hb [Hfresh Hc]].
    cbn [fold_left map].
    rewrite own_set_last.
    + rewrite IH; [now rewrite <- app_assoc | exact Hc |].
      intros k' k Hin Hk.
      unfold own_keys in Hin. rewrite map_app, in_app_iff in Hin.
      destruct Hin as [Hin | [<- | []]].
      * apply Hacc; [exact Hin | now right].
      * split; [now apply Hb |]. simpl. intros ->. contradiction.
    + intros Hin. destruct (Hacc a a Hin (or_introl eq_refl)) as [_ Hne].
      now apply Hne.
    + intros k' Hin. now apply (Hacc k' a Hin (or_introl eq_refl)).
Qed.

(** Every key other than [__proto__] that such a loop visits ends up
    bound to its [f]. *)
Lemma write_loop_own_visited
  (ks : list string) (acc : JSObject) (k : string) :
  In k ks -> k <> "__proto__" ->
  obj_get_own (fold_left (fun o a => obj_set o a (f a)) ks acc) k = f k.
Proof.
  intros Hin Hk. apply in_split in Hin.
  revert acc. induction ks as [| a ks IH]; intros acc.
  - destruct Hin as [l1 [l2 H]]. now destruct l1.
  - simpl. destruct (in_dec string_dec k ks) as [Hlater | Hout].
    + apply IH. now apply in_split.
    + destruct Hin as [l1 [l2 H]].
      assert (a = k).
      { destruct l1 as [| x l1]; simpl in H; injection H as Hx Hl.
        - now symmetry.
        - exfalso. apply Hout. rewrite Hl. apply in_or_app. right. now left. }
      subst a.
      rewrite (write_loop_own_skipped (fun a => a) f).
      * apply obj_get_own_set_same. now apply assigns_own_other.
      * intros b Hb ->. contradiction.
Qed.

End CopyLoops.

Lemma fold_left_pointwise
  (F G : JSObject -> string -> JSObject) (ks : list string) (acc : JSObject) :
  (forall o a, F o a = G o a) -> fold_left F ks acc = fold_left G ks acc.
Proof.
  intros H. revert acc. induction ks as [| a ks IH]; simpl; intros acc.
  - reflexivity.
  - now rewrite H, IH.
Qed.

Lemma fold_left_pointwise_in
  (F G : JSObject -> string -> JSObject) (ks : list string) (acc : JSObject) :
  (forall o a, In a ks -> F o a = G o a) ->
  fold_left F ks acc = fold_left G ks acc.
Proof.
  revert acc. induction ks as [| a ks IH]; simpl; intros acc H.
  - reflexivity.
  - rewrite H by now left. apply IH. intros o b Hb. apply H. now right.
Qed.

(* ------------------------------------------------------------------ *)
(** ** Lemmas on the class *)

Section ClassLemmas.

Variable this : ObjectContainer.

Lemma convertKey_idem (key : string) :
  convertKey this (convertKey this key) = convertKey this key.
Proof.
  unfold convertKey.
  destruct (convertAllKeysToLowerCase (config this));
    [apply toLowerCase_idem | reflexivity].
Qed.

Lemma convertKey_lowercase (key : string) :
  convertAllKeysToLowerCase (config this) = true ->
  toLowerCase (convertKey this key) = convertKey this key.
Proof.
  unfold convertKey. intros ->. apply toLowerCase_idem.
Qed.

Lemma convertValue_idem (value : Value) :
  convertValue this (convertValue this value) = convertValue this value.
Proof.
  unfold convertValue.
  destruct (convertAllValuesToLowerCase (config this)); [| reflexivity].
  destruct value; simpl; try reflexivity.
  now rewrite toLowerCase_idem.
Qed.

Lemma convertValue_undefined :
  convertValue this VUndefined = VUndefined.
Proof.
  unfold convertValue. simpl. now rewrite andb_false_r.
Qed.

Lemma convertValue_is_undefined (value : Value) :
  is_undefined (convertValue this value) = is_undefined value.
Proof.
  unfold convertValue.
  destruct (convertAllValuesToLowerCase (config this));
    destruct value; reflexivity.
Qed.

Lemma convertValue_null (value : Value) :
  convertValue this value = VNull -> value = VNull.
Proof.
  unfold convertValue.
  destruct (convertAllValuesToLowerCase (config this));
    destruct value; simpl; congruence.
Qed.

Lemma convertValue_nan (value : Value) :
  convertValue this value = VNaN -> value = VNaN.
Proof.
  unfold convertValue.
  destruct (convertAllValuesToLowerCase (config this));
    destruct value; simpl; congruence.
Qed.

Lemma convertValue_lowercase (value : Value) :
  convertAllValuesToLowerCase (config this) = true ->
  lowercase_value (convertValue this value) = true.
Proof.
  unfold convertValue. intros ->.
  destruct value; simpl; try reflexivity.
  apply String.eqb_eq, toLowerCase_idem.
Qed.

Lemma convertValue_fixed (value : Value) :
  lowercase_value value = true -> convertValue this value = value.
Proof.
  unfold convertValue.
  destruct (convertAllValuesToLowerCase (config this)); [| reflexivity].
  destruct value; simpl; try reflexivity.
  intros H. apply String.eqb_eq in H. now rewrite H.
Qed.

Lemma undefined_read_true (r : Read) :
  undefined_read r = true <-> r = Val VUndefined.
Proof.
  destruct r as [v | |]; simpl; try (split; congruence).
  rewrite is_undefined_true. split; congruence.
Qed.

Lemma has_unfold (key : string) (value : Value) :
  has this key value =
  negb (undefined_read (stored this key))
  && (is_undefined value
      || strict_eq_read (stored this key) (convertValue this value)).
Proof.
  unfold has, stored. rewrite convertValue_is_undefined.
  destruct (is_undefined value); simpl.
  - now rewrite andb_true_r.
  - now destruct (undefined_read (obj_get (data this) (convertKey this key))).
Qed.

(** The one-argument form of [has] looks only at what the key reads as. *)
Lemma has_key_only (key : string) :
  has this key VUndefined = negb (undefined_read (stored this key)).
Proof. rewrite has_unfold. simpl. now rewrite andb_true_r. Qed.

Lemma get_unfold (key : string) (d : Value) :
  get this key d = nullish (stored this key) (default_in_force d).
Proof. reflexivity. Qed.

Lemma data_put (key : string) (value : Value) :
  data (put this key value) =
  obj_set (data this) (convertKey this key) (convertValue this value).
Proof. reflexivity. Qed.

Lemma stored_put (key key' : string) (value : Value) :
  stored (put this key value) key' =
  obj_get (obj_set (data this) (convertKey this key)
                   (convertValue this value))
          (convertKey this key').
Proof. reflexivity. Qed.

Lemma stored_put_same (key : string) (value : Value) :
  assigns_own (data this) (convertKey this key) = true ->
  stored (put this key value) key = Val (convertValue this value).
Proof. intros Ha. rewrite stored_put. now apply obj_get_set_same. Qed.

Lemma stored_put_other (key key' : string) (value : Value) :
  assigns_own (data this) (convertKey this key) = true ->
  convertKey this key <> convertKey this key' ->
  stored (put this key value) key' = stored this key'.
Proof. intros Ha Hne. rewrite stored_put. now apply obj_get_set_other. Qed.

Lemma convertKey_put (key key' : string) (value : Value) :
  convertKey (put this key value) key' = convertKey this key'.
Proof. reflexivity. Qed.

Lemma convertValue_put (key : string) (value value' : Value) :
  convertValue (put this key value) value' = convertValue this value'.
Proof. reflexivity. Qed.

(** [putIfNotExists] normalises twice; the second pass changes nothing. *)
Lemma put_normalised (key : string) (value : Value) :
  put this (convertKey this key) (convertValue this value) =
  put this key value.
Proof.
  unfold put. now rewrite convertKey_idem, convertValue_idem.
Qed.

Lemma forget_absent (key : string) :
  has this key VUndefined = false -> forget this key = this.
Proof. unfold forget. now intros ->. Qed.

Lemma forget_present (key : string) :
  has this key VUndefined = true ->
  forget this key =
  {| data := obj_delete (data this) (convertKey this key);
     config := config this |}.
Proof. unfold forget. now intros ->. Qed.

Lemma config_forget (key : string) :
  config (forget this key) = config this.
Proof.
  unfold forget. destruct (negb (has this key VUndefined)); reflexivity.
Qed.

Lemma convertKey_forget (key key' : string) :
  convertKey (forget this key) key' = convertKey this key'.
Proof. unfold convertKey. now rewrite config_forget. Qed.

Lemma convertValue_forget (key : string) (value : Value) :
  convertValue (forget this key) value = convertValue this value.
Proof. unfold convertValue. now rewrite config_forget. Qed.


Lemma stored_forget_other (key key' : string) :
  convertKey this key <> convertKey this key' ->
  stored (forget this key) key' = stored this key'.
Proof.
  intros Hne. unfold stored. rewrite convertKey_forget.
  destruct (has this key VUndefined) eqn:E.
  - rewrite forget_present by exact E. cbn [data].
    now apply obj_get_delete_other.
  - now rewrite forget_absent.
Qed.

(** The loop of [prepareData] normalises each entry the way [put] does. *)
Lemma prepareData_body_normalises (acc : JSObject) (dataKey : string) :
  prepareData_body this acc dataKey =
  obj_set acc (convertKey this dataKey)
          (convertValue this (obj_get_own (data this) dataKey)).
Proof.
  unfold prepareData_body, convertKey, convertValue.
  destruct (convertAllValuesToLowerCase (config this));
    destruct (obj_get_own (data this) dataKey); reflexivity.
Qed.

Lemma prepareData_loop_normalises (ks : list string) (acc : JSObject) :
  fold_left (prepareData_body this) ks acc =
  fold_left (fun o a => obj_set o (convertKey this a)
                          (convertValue this (obj_get_own (data this) a)))
            ks acc.
Proof.
  apply fold_left_pointwise. intros o a.
  apply prepareData_body_normalises.
Qed.

Lemma config_prepareData :
  config (prepareData this) = config this.
Proof.
  unfold prepareData.
  destruct (negb _ && negb _); reflexivity.
Qed.


End ClassLemmas.

Section Invariants.



(** The normalisation pass establishes the key invariant. *)
Lemma keys_invariant_prepareData (this : ObjectContainer) :
  keys_invariant (prepareData this).
Proof.
  unfold keys_invariant. rewrite config_prepareData. intros Hflag.
  unfold prepareData. rewrite Hflag. simpl. rewrite andb_false_r. simpl.
  rewrite prepareData_loop_normalises.
  apply (write_loop_lowercase_keys (convertKey this)); [| reflexivity].
  intros a. now apply convertKey_lowercase.
Qed.

Lemma keys_invariant_new
  (initial : option JSObject) (configuration : option ConfigurationArg) :
  keys_invariant (new_ObjectContainer initial configuration).
Proof. apply keys_invariant_prepareData. Qed.

Lemma keys_invariant_put
  (this : ObjectContainer) (key : string) (value : Value) :
  keys_invariant this -> keys_invariant (put this key value).
Proof.
  unfold keys_invariant. simpl. intros Hinv Hflag.
  apply keys_lowercase_set; [now apply Hinv |].
  now apply convertKey_lowercase.
Qed.

Lemma keys_invariant_putIfNotExists
  (this : ObjectContainer) (key : string) (value : Value) :
  keys_invariant this ->
  keys_invariant (fst (putIfNotExists this key value)).
Proof.
  intros Hinv. unfold putIfNotExists.
  destruct (has this key VUndefined); simpl; [exact Hinv |].
  rewrite put_normalised. now apply keys_invariant_put.
Qed.

Lemma keys_invariant_forget (this : ObjectContainer) (key : string) :
  keys_invariant this -> keys_invariant (forget this key).
Proof.
  intros Hinv. unfold forget.
  destruct (negb (has this key VUndefined)); [exact Hinv |].
  unfold keys_invariant. simpl. intros Hflag.
  apply keys_lowercase_delete. now apply Hinv.
Qed.

Lemma keys_invariant_clear (this : ObjectContainer) :
  keys_invariant (clear this).
Proof. unfold keys_invariant. reflexivity. Qed.

(** Every method but [populate] keeps the key invariant. *)
Lemma keys_invariant_call (this : ObjectContainer) (op : Op) :
  is_populate op = false ->
  keys_invariant this -> keys_invariant (fst (call this op)).
Proof.
  intros Hop Hinv. destruct op; simpl; try exact Hinv; try discriminate.
  - apply keys_invariant_prepareData.
  - now apply keys_invariant_put.
  - pose proof (keys_invariant_putIfNotExists this key value Hinv) as H.
    destruct (putIfNotExists this key value). exact H.
  - now apply keys_invariant_forget.
  - now apply keys_invariant_forget.
  - apply keys_invariant_clear.
Qed.

Lemma values_invariant_prepareData (this : ObjectContainer) :
  values_invariant (prepareData this).
Proof.
  unfold values_invariant. rewrite config_prepareData. intros Hflag.
  unfold prepareData. rewrite Hflag. simpl.
  rewrite prepareData_loop_normalises.
  apply write_loop_values; [| reflexivity].
  intros a. now apply convertValue_lowercase.
Qed.

Lemma values_invariant_put
  (this : ObjectContainer) (key : string) (value : Value) :
  values_invariant this -> values_invariant (put this key value).
Proof.
  unfold values_invariant. simpl. intros Hinv Hflag.
  apply values_lowercase_set; [now apply Hinv |].
  now apply convertValue_lowercase.
Qed.

Lemma values_invariant_putIfNotExists
  (this : ObjectContainer) (key : string) (value : Value) :
  values_invariant this ->
  values_invariant (fst (putIfNotExists this key value)).
Proof.
  intros Hinv. unfold putIfNotExists.
  destruct (has this key VUndefined); simpl; [exact Hinv |].
  rewrite put_normalised. now apply values_invariant_put.
Qed.

Lemma values_invariant_forget (this : ObjectContainer) (key : string) :
  values_invariant this -> values_invariant (forget this key).
Proof.
  intros Hinv. unfold forget.
  destruct (negb (has this key VUndefined)); [exact Hinv |].
  unfold values_invariant. simpl. intros Hflag.
  apply values_lowercase_delete. now apply Hinv.
Qed.

Lemma values_invariant_call (this : ObjectContainer) (op : Op) :
  is_populate op = false ->
  values_invariant this -> values_invariant (fst (call this op)).
Proof.
  intros Hop Hinv. destruct op; simpl; try exact Hinv; try discriminate.
  - apply values_invariant_prepareData.
  - now apply values_invariant_put.
  - pose proof (values_invariant_putIfNotExists this key value Hinv) as H.
    destruct (putIfNotExists this key value). exact H.
  - now apply values_invariant_forget.
  - now apply values_invariant_forget.
  - unfold values_invariant. reflexivity.
Qed.

Lemma invariants_run (ops : list Op) (this : ObjectContainer) :
  forallb (fun op => negb (is_populate op)) ops = true ->
  keys_invariant this -> values_invariant this ->
  keys_invariant (fst (run this ops)) /\
  values_invariant (fst (run this ops)).
Proof.
  revert this. induction ops as [| op ops IH]; simpl; intros this Hops Hk Hv.
  - now split.
  - apply andb_true_iff in Hops. destruct Hops as [Hop Hops].
    apply negb_true_iff in Hop.
    pose proof (keys_invariant_call this op Hop Hk) as Hk'.
    pose proof (values_invariant_call this op Hop Hv) as Hv'.
    destruct (call this op) as [this' r]. simpl in Hk', Hv'.
    specialize (IH this' Hops Hk' Hv').
    destruct (run this' ops) as [final rs]. exact IH.
Qed.

End Invariants.

Section PopulateLemmas.

Variable this : ObjectContainer.
Variable vals : JSObject.

Lemma data_populate :
  data (populate this vals) =
  fold_left (fun o a => obj_set o a (obj_get_own vals a)) (obj_keys vals)
            (plain []).
Proof. reflexivity. Qed.

(** [populate] copies its argument property by property, whatever the
    configuration says; a property named [__proto__] apart. *)
Lemma populate_copies (k : string) :
  k <> "__proto__" ->
  obj_get_own (items (populate this vals)) k = obj_get_own vals k.
Proof.
  intros Hk. unfold items. rewrite data_populate.
  destruct (in_dec string_dec k (obj_keys vals)) as [Hin | Hout].
  - now apply (write_loop_own_visited (fun a => obj_get_own vals a)).
  - rewrite (write_loop_own_skipped (fun a => a)).
    + symmetry. apply obj_get_own_absent. now apply obj_has_own_false.
    + intros a Ha ->. contradiction.
Qed.

Lemma populate_keys_sub (k : string) :
  In k (keys (populate this vals)) -> In k (obj_keys vals).
Proof.
  unfold keys. rewrite data_populate. intros H.
  apply (write_loop_keys (fun a => a)) in H.
  destruct H as [[a [Ha <-]] | []]. exact Ha.
Qed.

Lemma populate_keys (k : string) :
  k <> "__proto__" ->
  (In k (keys (populate this vals)) <-> In k (obj_keys vals)).
Proof.
  intros Hk. split; [apply populate_keys_sub |].
  intros Hin. unfold keys. rewrite data_populate.
  now apply (write_loop_key_written (fun a => a)).
Qed.

(** Round trip: [populate] then [items] gives a plain object with the
    properties of the argument, whatever the configuration says. *)
Lemma populate_roundtrip :
  obj_canonical vals = true ->
  ~ In "__proto__" (obj_keys vals) ->
  items (populate this vals) = plain (props vals).
Proof.
  intros Hc Hp. unfold items. rewrite data_populate.
  rewrite (write_loop_plain (fun a => a)).
  - simpl. unfold plain. f_equal.
    rewrite own_loop_appends.
    + simpl. now apply own_get_all.
    + exact Hc.
    + intros k' k [].
  - intros a Ha ->. contradiction.
Qed.

Lemma obj_canonical_populate :
  obj_canonical (data (populate this vals)) = true.
Proof.
  rewrite data_populate.
  now apply (write_loop_canonical (fun a => a)).
Qed.

End PopulateLemmas.

Section WellFormedContainer.

Lemma prepareData_loop_canonical (this : ObjectContainer) (ks : list string) :
  obj_canonical (fold_left (prepareData_body this) ks (plain [])) = true.
Proof.
  rewrite prepareData_loop_normalises.
  now apply write_loop_canonical.
Qed.

Lemma obj_canonical_prepareData (this : ObjectContainer) :
  obj_canonical (data this) = true ->
  obj_canonical (data (prepareData this)) = true.
Proof.
  intros Hc. unfold prepareData.
  destruct (negb _ && negb _); [exact Hc |].
  apply prepareData_loop_canonical.
Qed.

Lemma obj_canonical_forget (this : ObjectContainer) (key : string) :
  obj_canonical (data this) = true ->
  obj_canonical (data (forget this key)) = true.
Proof.
  intros Hc. unfold forget.
  destruct (negb (has this key VUndefined)); [exact Hc |].
  now apply obj_canonical_delete.
Qed.

Lemma obj_canonical_call (this : ObjectContainer) (op : Op) :
  obj_canonical (data this) = true ->
  obj_canonical (data (fst (call this op))) = true.
Proof.
  intros Hc. destruct op; simpl; try exact Hc.
  - now apply obj_canonical_prepareData.
  - now apply obj_canonical_set.
  - unfold putIfNotExists.
    destruct (has this key VUndefined); simpl; [exact Hc |].
    now apply obj_canonical_set.
  - now apply obj_canonical_forget.
  - now apply obj_canonical_forget.
  - reflexivity.
  - exact (obj_canonical_populate this vals).
Qed.

Lemma obj_canonical_run (ops : list Op) (this : ObjectContainer) :
  obj_canonical (data this) = true ->
  obj_canonical (data (fst (run this ops))) = true.
Proof.
  revert this. induction ops as [| op ops IH]; simpl; intros this Hc.
  - exact Hc.
  - pose proof (obj_canonical_call this op Hc) as Hc'.
    destruct (call this op) as [this' r]. simpl in Hc'.
    specialize (IH this' Hc').
    destruct (run this' ops) as [final rs]. exact IH.
Qed.

(** On a mapping that satisfies both invariants and has no key
    [__proto__], the normalisation loop copies the properties into a fresh
    plain object. *)
Lemma prepareData_loop_copies (this : ObjectContainer) :
  keys_invariant this -> values_invariant this ->
  obj_canonical (data this) = true ->
  ~ In "__proto__" (obj_keys (data this)) ->
  fold_left (prepareData_body this) (obj_keys (data this)) (plain []) =
  plain (props (data this)).
Proof.
  intros Hk Hv Hc Hp.
  rewrite (fold_left_pointwise_in _
             (fun o a => obj_set o a (obj_get_own (data this) a))).
  - rewrite (write_loop_plain (fun a => a)).
    + simpl. unfold plain. f_equal. rewrite own_loop_appends.
      * simpl. now apply own_get_all.
      * exact Hc.
      * intros k' k [].
    + intros a Ha ->. contradiction.
  - intros o a Ha. rewrite prepareData_body_normalises. f_equal.
    + unfold convertKey.
      destruct (convertAllKeysToLowerCase (config this)) eqn:E;
        [| reflexivity].
      specialize (Hk E). rewrite keys_lowercase_spec in Hk. now apply Hk.
    + unfold convertValue.
      destruct (convertAllValuesToLowerCase (config this)) eqn:E;
        [| reflexivity].
      specialize (Hv E). rewrite values_lowercase_spec in Hv.
      pose proof (Hv _ (obj_get_in_values _ _ Ha)) as Hl.
      destruct (obj_get_own (data this) a); simpl in *; try reflexivity.
      apply String.eqb_eq in Hl. now rewrite Hl.
Qed.

End WellFormedContainer.

Section Idempotence.

Variable this : ObjectContainer.

Hypothesis no_proto_key :
  forall k, In k (keys this) -> convertKey this k <> "__proto__".

Lemma prepareData_data_plain :
  negb (convertAllValuesToLowerCase (config this))
  && negb (convertAllKeysToLowerCase (config this)) = false ->
  data (prepareData this) = plain (props (data (prepareData this))) /\
  ~ In "__proto__" (obj_keys (data (prepareData this))).
Proof.
  intros E. unfold prepareData. rewrite E. cbn [data].
  rewrite prepareData_loop_normalises. split.
  - rewrite (write_loop_plain (convertKey this)) by exact no_proto_key.
    reflexivity.
  - intros Hin. apply (write_loop_keys (convertKey this)) in Hin.
    destruct Hin as [[a [Ha Hg]] | []].
    now apply (no_proto_key a).
Qed.

(** The normalisation pass is idempotent on a container none of whose keys
    normalises to [__proto__]. *)
Lemma prepareData_twice :
  prepareData (prepareData this) = prepareData this.
Proof.
  destruct (negb (convertAllValuesToLowerCase (config this))
            && negb (convertAllKeysToLowerCase (config this))) eqn:E.
  - unfold prepareData. now rewrite !E.
  - pose proof (keys_invariant_prepareData this) as Hk.
    pose proof (values_invariant_prepareData this) as Hv.
    destruct (prepareData_data_plain E) as [Hplain Hp].
    assert (Hc : obj_canonical (data (prepareData this)) = true).
    { unfold prepareData. rewrite E. apply prepareData_loop_canonical. }
    pose proof (prepareData_loop_copies _ Hk Hv Hc Hp) as Hcopy.
    pose proof (config_prepareData this) as Hcfg.
    remember (prepareData this) as p eqn:Ep. clear Ep.
    unfold prepareData. rewrite Hcfg, E, Hcopy, <- Hplain, <- Hcfg.
    now destruct p.
Qed.

End Idempotence.

(* ------------------------------------------------------------------ *)
(** ** Properties of the container *)

(** C1. With lower-case keys requested, every key of the internal mapping
    is lower-case after construction and after each of [put],
    [putIfNotExists], [forget], [clear] and [populate].  The constructor and
    the first four methods keep this ([keys_invariant_new],
    [keys_invariant_call]); [populate] does not normalise what it copies:
    populating such a container with [{Foo: 1}] leaves the key [Foo] in the
    mapping, where neither [has("Foo")] nor [has("foo")] finds it. *)
Theorem C1_populate_leaves_mixed_case_key :
  let c := populate (new_ObjectContainer None (Some keys_on))
                    (plain [("Foo", VNum 1)]) in
  convertAllKeysToLowerCase (config c) = true /\
  keys c = ["Foo"] /\
  keys_lowercase (data c) = false /\
  has c "Foo" VUndefined = false /\
  has c "foo" VUndefined = false.
Proof. repeat split. Qed.

(** C2. After [populate(m)], [items()] is [m] with keys and string values
    lower-cased as the flags ask.  In the code [populate] copies [m] as it
    is ([populate_copies], [populate_keys]): with both flags set,
    populating with [{Foo: "Bar"}] makes [items()] return [{Foo: "Bar"}],
    not [{foo: "bar"}]. *)
Theorem C2_populate_ignores_flags :
  let c := populate (new_ObjectContainer None (Some both_on))
                    (plain [("Foo", VStr "Bar")]) in
  convertAllKeysToLowerCase (config c) = true /\
  convertAllValuesToLowerCase (config c) = true /\
  items c = plain [("Foo", VStr "Bar")] /\
  items c <> plain [("foo", VStr "bar")].
Proof. repeat split. discriminate. Qed.

(** C3, as stated, fails for the key [__proto__]: on a store that
    inherits from [Object.prototype] the assignment runs the [__proto__]
    setter, which ignores a string; nothing is stored and [get] answers
    [Object.prototype]. *)
Lemma C3_counterexample :
  let c := new_ObjectContainer None (Some values_on) in
  convertAllValuesToLowerCase (config c) = true /\
  keys (put c "__proto__" (VStr "HELLO")) = [] /\
  get (put c "__proto__" (VStr "HELLO")) "__proto__" VUndefined =
    IntrinsicObjectPrototype /\
  get (put c "__proto__" (VStr "HELLO")) "__proto__" VUndefined <>
    Val (VStr "hello").
Proof. repeat split. discriminate. Qed.

(** C3 (amended). With lower-case values requested, a string [v] put
    under a key is read back by [get] as [v.toLowerCase()], with or without
    a default argument, for every key that the assignment stores as an own
    property: every key but [__proto__], and [__proto__] too when the
    mapping has an own property of that name or no longer inherits the
    accessor. *)
Theorem C3_put_get_lowercases_string
  (this : ObjectContainer) (key v : string) (_default : Value) :
  convertAllValuesToLowerCase (config this) = true ->
  assigns_own (data this) (convertKey this key) = true ->
  get (put this key (VStr v)) key _default = Val (VStr (toLowerCase v)).
Proof.
  intros Hflag Ha. rewrite get_unfold, stored_put_same by exact Ha.
  unfold convertValue. rewrite Hflag. reflexivity.
Qed.

Lemma C3_witness :
  let c := new_ObjectContainer None (Some values_on) in
  convertAllValuesToLowerCase (config c) = true /\
  assigns_own (data c) (convertKey c "toString") = true /\
  get (put c "toString" (VStr "HELLO")) "toString" VUndefined =
    Val (VStr "hello").
Proof.
  split; [reflexivity |]. split; [reflexivity |].
  apply (C3_put_get_lowercases_string
           (new_ObjectContainer None (Some values_on))
           "toString" "HELLO" VUndefined); reflexivity.
Defined.

(** C4. With lower-case keys requested, [has(k)] equals
    [has(k.toLowerCase())] (with or without a value to compare), and
    [get(k)] and [get(k.toLowerCase())] read the same entry: both query keys
    normalise to the same stored key. *)
Theorem C4_query_key_normalised
  (this : ObjectContainer) (k : string) (value _default : Value) :
  convertAllKeysToLowerCase (config this) = true ->
  convertKey this k = convertKey this (toLowerCase k) /\
  has this k value = has this (toLowerCase k) value /\
  get this k _default = get this (toLowerCase k) _default.
Proof.
  intros Hflag.
  assert (Hk : convertKey this k = convertKey this (toLowerCase k)).
  { unfold convertKey. rewrite Hflag. symmetry. apply toLowerCase_idem. }
  unfold has, get. rewrite <- Hk. auto.
Qed.

Lemma C4_witness :
  let c := new_ObjectContainer (Some (plain [("Foo", VStr "Bar")]))
                               (Some keys_on) in
  convertAllKeysToLowerCase (config c) = true /\
  has c "Foo" VUndefined = true /\
  has c "Foo" VUndefined = has c "foo" VUndefined /\
  get c "Foo" VUndefined = get c "foo" VUndefined.
Proof.
  split; [reflexivity |]. split; [reflexivity |].
  apply (C4_query_key_normalised
           (new_ObjectContainer (Some (plain [("Foo", VStr "Bar")]))
                                (Some keys_on))
           "Foo" VUndefined VUndefined).
  reflexivity.
Defined.

(** C5, as stated, fails when the first value is [undefined]: the entry is
    written, but [has] takes a stored [undefined] for a missing entry, so the
    second [putIfNotExists] goes through, returns [true] and overwrites. *)
Lemma C5_counterexample :
  let c := new_ObjectContainer None None in
  let c1 := fst (putIfNotExists c "a" VUndefined) in
  VUndefined <> VNum 1 /\
  has c "a" VUndefined = false /\
  snd (putIfNotExists c "a" VUndefined) = true /\
  snd (putIfNotExists c1 "a" (VNum 1)) = true /\
  fst (putIfNotExists c1 "a" (VNum 1)) <> c1 /\
  get (fst (putIfNotExists c1 "a" (VNum 1))) "a" VUndefined = Val (VNum 1).
Proof. repeat split; discriminate. Qed.

(** C5 (amended). For values [v1 <> v2] with [v1] not [undefined]:
    [putIfNotExists(k, v1)] on a container where [has(k)] is false stores the
    normalised [v1] under the normalised [k] and returns [true]; a following
    [putIfNotExists(k, v2)] returns [false], leaves the container as it is,
    and [get(k)] is the normalised [v1]. *)
Theorem C5_putIfNotExists_first_wins
  (this : ObjectContainer) (k : string) (v1 v2 : Value) :
  v1 <> v2 ->
  v1 <> VUndefined ->
  has this k VUndefined = false ->
  let first := putIfNotExists this k v1 in
  let second := putIfNotExists (fst first) k v2 in
  snd first = true /\
  obj_get (data (fst first)) (convertKey this k) =
    Val (convertValue this v1) /\
  snd second = false /\
  fst second = fst first /\
  get (fst second) k VUndefined = Val (convertValue this v1).
Proof.
  intros _ Hv1 Hhas. cbv zeta.
  assert (Hfirst : putIfNotExists this k v1 = (put this k v1, true)).
  { unfold putIfNotExists. rewrite Hhas. now rewrite put_normalised. }
  rewrite Hfirst. cbn [fst snd].
  assert (Ha : assigns_own (data this) (convertKey this k) = true).
  { apply undefined_read_assigns_own.
    rewrite has_key_only in Hhas. now apply negb_false_iff in Hhas. }
  assert (Hstored : stored (put this k v1) k = Val (convertValue this v1))
    by now apply stored_put_same.
  assert (Hdef : is_undefined (convertValue this v1) = false).
  { rewrite convertValue_is_undefined. now apply is_undefined_false. }
  assert (Hnow : has (put this k v1) k VUndefined = true).
  { rewrite has_key_only, Hstored. simpl. now rewrite Hdef. }
  assert (Hsecond :
            putIfNotExists (put this k v1) k v2 = (put this k v1, false)).
  { unfold putIfNotExists. now rewrite Hnow. }
  rewrite Hsecond. cbn [fst snd].
  repeat split; try assumption.
  rewrite get_unfold, Hstored.
  destruct (convertValue this v1); try reflexivity. discriminate.
Qed.

Lemma C5_witness :
  let c := new_ObjectContainer None (Some both_on) in
  let first := putIfNotExists c "A" (VStr "One") in
  let second := putIfNotExists (fst first) "A" (VStr "Two") in
  VStr "One" <> VStr "Two" /\
  VStr "One" <> VUndefined /\
  has c "A" VUndefined = false /\
  snd first = true /\
  obj_get (data (fst first)) "a" = Val (VStr "one") /\
  snd second = false /\
  fst second = fst first /\
  get (fst second) "A" VUndefined = Val (VStr "one").
Proof.
  split; [discriminate |]. split; [discriminate |]. split; [reflexivity |].
  apply (C5_putIfNotExists_first_wins
           (new_ObjectContainer None (Some both_on)) "A"
           (VStr "One") (VStr "Two")).
  - discriminate.
  - discriminate.
  - reflexivity.
Defined.

(** C6. [forget(k)] (and its synonym [remove(k)]) on a key for which
    [has(k)] is false returns the container it was called on, unchanged;
    being a total function, the call cannot fail. *)
Theorem C6_forget_absent_is_noop (this : ObjectContainer) (k : string) :
  has this k VUndefined = false ->
  forget this k = this /\
  remove this k = this /\
  call this (OpForget k) = (this, RThis).
Proof.
  intros Hhas.
  assert (H : forget this k = this) by now apply forget_absent.
  unfold remove. simpl. rewrite H. auto.
Qed.

Lemma C6_witness :
  let c := put (new_ObjectContainer None None) "a" (VNum 1) in
  has c "missing" VUndefined = false /\
  forget c "missing" = c /\
  remove c "missing" = c /\
  call c (OpForget "missing") = (c, RThis).
Proof.
  split; [reflexivity |].
  apply (C6_forget_absent_is_noop
           (put (new_ObjectContainer None None) "a" (VNum 1)) "missing").
  reflexivity.
Defined.









(** C10, as stated, fails in its last part: [get] does tell a stored
    [null] from a key that is absent from the mapping when that key is
    inherited, as [toString] is; it also fails for the default [undefined],
    for which [get] answers [null]. *)
Lemma C10_counterexample :
  let c := put (new_ObjectContainer None None) "k" VNull in
  obj_get (data c) (convertKey c "k") = Val VNull /\
  has c "k" VUndefined = true /\
  keys c = ["k"] /\
  obj_has_own (data c) (convertKey c "toString") = false /\
  get c "k" (VNum 0) = Val (VNum 0) /\
  get c "toString" (VNum 0) = IntrinsicMethod "toString" /\
  get c "k" (VNum 0) <> get c "toString" (VNum 0) /\
  get c "k" VUndefined = Val VNull /\
  get c "k" VUndefined <> Val VUndefined.
Proof. repeat split; discriminate. Qed.

(** C10 (amended). For a key whose stored value is [null], [has(k)] is
    true, yet [get(k, d)] answers the default in force and not the stored
    [null]: [d] itself for every [d] other than [undefined], and [null]
    when [d] is [undefined] or left out.  [get] answers the same for every
    key that reads as [undefined], one that is neither stored nor
    inherited, although [has] is false for it. *)
Theorem C10_stored_null_reads_as_default
  (this : ObjectContainer) (k : string) (d : Value) :
  obj_get (data this) (convertKey this k) = Val VNull ->
  has this k VUndefined = true /\
  get this k d = Val (match d with VUndefined => VNull | _ => d end) /\
  (forall k' : string,
      obj_get (data this) (convertKey this k') = Val VUndefined ->
      has this k' VUndefined = false /\ get this k' d = get this k d).
Proof.
  intros Hnull.
  assert (Hs : stored this k = Val VNull) by exact Hnull.
  repeat split.
  - rewrite has_key_only. now rewrite Hs.
  - rewrite get_unfold. now rewrite Hs.
  - rewrite has_key_only. unfold stored. now rewrite H.
  - rewrite !get_unfold, Hs. unfold stored. now rewrite H.
Qed.

Lemma C10_witness :
  let c := put (new_ObjectContainer None None) "k" VNull in
  obj_get (data c) (convertKey c "k") = Val VNull /\
  has c "k" VUndefined = true /\
  get c "k" (VStr "fallback") = Val (VStr "fallback") /\
  has c "absent" VUndefined = false /\
  get c "absent" (VStr "fallback") = get c "k" (VStr "fallback").
Proof.
  split; [reflexivity |].
  pose proof (C10_stored_null_reads_as_default
                (put (new_ObjectContainer None None) "k" VNull)
                "k" (VStr "fallback") eq_refl) as [Hhas [Hget Hsame]].
  split; [exact Hhas |]. split; [exact Hget |].
  apply (Hsame "absent"). reflexivity.
Defined.

(* ------------------------------------------------------------------ *)
(** ** Further properties: writing and removing *)

(** X1. [put] is idempotent on every key that the assignment stores as
    an own property (every key but [__proto__], and [__proto__] too when the
    mapping has an own property of that name or no longer inherits the
    accessor): putting the same value under the same key a second time
    leaves the container exactly as the first call left it. *)
Theorem X1_put_idempotent
  (this : ObjectContainer) (key : string) (value : Value) :
  assigns_own (data this) (convertKey this key) = true ->
  put (put this key value) key value = put this key value.
Proof.
  intros Ha. unfold put at 1.
  rewrite convertKey_put, convertValue_put, data_put.
  rewrite obj_set_same_twice by exact Ha. reflexivity.
Qed.

Lemma X1_witness :
  let c := put (new_ObjectContainer None (Some both_on)) "b" (VNum 1) in
  assigns_own (data c) (convertKey c "ValueOf") = true /\
  put (put c "ValueOf" (VStr "X")) "ValueOf" (VStr "X") =
    put c "ValueOf" (VStr "X").
Proof.
  split; [reflexivity |].
  apply (X1_put_idempotent
           (put (new_ObjectContainer None (Some both_on)) "b" (VNum 1))
           "ValueOf" (VStr "X")).
  reflexivity.
Defined.

(** X2. On such a key, a second [put] overwrites in place: the key list
    (and so the position of the key in [keys()]) is that of the first [put],
    and the key reads as the normalised second value. *)
Theorem X2_put_overwrites_in_place
  (this : ObjectContainer) (key : string) (v1 v2 : Value) :
  assigns_own (data this) (convertKey this key) = true ->
  keys (put (put this key v1) key v2) = keys (put this key v1) /\
  obj_get (items (put (put this key v1) key v2)) (convertKey this key) =
    Val (convertValue this v2).
Proof.
  intros Ha. split.
  - unfold keys. rewrite (data_put (put this key v1)).
    rewrite convertKey_put, data_put. now apply obj_keys_set_twice.
  - apply (stored_put_same (put this key v1)).
    rewrite convertKey_put, data_put. now apply assigns_own_set.
Qed.

Lemma X2_witness :
  let c := put (new_ObjectContainer None None) "z" (VNum 0) in
  assigns_own (data c) (convertKey c "a") = true /\
  keys (put (put (put c "a" (VNum 1)) "b" (VNum 2)) "a" (VNum 3)) =
    ["z"; "a"; "b"] /\
  keys (put (put c "a" (VNum 1)) "a" (VNum 3)) = keys (put c "a" (VNum 1)) /\
  obj_get (items (put (put c "a" (VNum 1)) "a" (VNum 3))) "a" =
    Val (VNum 3).
Proof.
  split; [reflexivity |]. split; [reflexivity |].
  apply (X2_put_overwrites_in_place
           (put (new_ObjectContainer None None) "z" (VNum 0))
           "a" (VNum 1) (VNum 3)).
  reflexivity.
Defined.

(** X3. On such a key, [put] touches one entry only: for a key that
    normalises to another property, [has] (with or without a value) and
    [get] answer as before. *)
Theorem X3_put_leaves_other_keys
  (this : ObjectContainer) (key key' : string) (value v d : Value) :
  assigns_own (data this) (convertKey this key) = true ->
  convertKey this key <> convertKey this key' ->
  has (put this key value) key' v = has this key' v /\
  get (put this key value) key' d = get this key' d.
Proof.
  intros Ha Hne. rewrite !has_unfold, !get_unfold.
  rewrite stored_put_other by assumption. auto.
Qed.

Lemma X3_witness :
  let c := put (new_ObjectContainer None (Some keys_on)) "A" (VNum 1) in
  assigns_own (data c) (convertKey c "B") = true /\
  convertKey c "B" <> convertKey c "a" /\
  has (put c "B" (VNum 2)) "a" (VNum 1) = true /\
  get (put c "B" (VNum 2)) "a" VUndefined = Val (VNum 1).
Proof.
  split; [reflexivity |]. split; [discriminate |].
  pose proof (X3_put_leaves_other_keys
                (put (new_ObjectContainer None (Some keys_on)) "A" (VNum 1))
                "B" "a" (VNum 2) (VNum 1) VUndefined eq_refl) as H.
  destruct H as [H1 H2]; [discriminate |].
  split; [rewrite H1 | rewrite H2]; reflexivity.
Defined.



(** X5. [forget] touches one entry only: for a key that normalises to
    another property, [has] and [get] answer as before. *)
Theorem X5_forget_leaves_other_keys
  (this : ObjectContainer) (key key' : string) (v d : Value) :
  convertKey this key <> convertKey this key' ->
  has (forget this key) key' v = has this key' v /\
  get (forget this key) key' d = get this key' d.
Proof.
  intros Hne. rewrite !has_unfold, !get_unfold.
  rewrite stored_forget_other by assumption.
  now rewrite convertValue_forget.
Qed.

Lemma X5_witness :
  let c := put (put (new_ObjectContainer None None) "a" (VNum 1))
               "b" (VNum 2) in
  convertKey c "a" <> convertKey c "b" /\
  has (forget c "a") "b" (VNum 2) = true /\
  get (forget c "a") "b" VUndefined = Val (VNum 2).
Proof.
  split; [discriminate |].
  pose proof (X5_forget_leaves_other_keys
                (put (put (new_ObjectContainer None None) "a" (VNum 1))
                     "b" (VNum 2))
                "a" "b" (VNum 2) VUndefined) as H.
  destruct H as [H1 H2]; [discriminate |].
  split; [rewrite H1 | rewrite H2]; reflexivity.
Defined.

(** X6. An entry whose value is [undefined] cannot be removed with
    [forget]: on a key that the assignment stores as an own property,
    after [put(k, undefined)] the call [forget(k)] takes the entry for
    missing and returns at once, so the key stays in [keys()] and the
    container is not [empty()]. *)
Theorem X6_forget_keeps_undefined_entry
  (this : ObjectContainer) (key : string) :
  assigns_own (data this) (convertKey this key) = true ->
  let c := put this key VUndefined in
  forget c key = c /\
  In (convertKey this key) (keys (forget c key)) /\
  empty (forget c key) = false.
Proof.
  intros Ha. cbv zeta.
  assert (Hhas : has (put this key VUndefined) key VUndefined = false).
  { rewrite has_key_only, stored_put_same by exact Ha.
    now rewrite convertValue_undefined. }
  rewrite (forget_absent _ _ Hhas).
  assert (Hin : In (convertKey this key) (keys (put this key VUndefined))).
  { unfold keys. rewrite data_put.
    apply obj_keys_set_assigned; [exact Ha | now left]. }
  repeat split; try assumption.
  unfold empty. destruct (keys (put this key VUndefined)); [destruct Hin |].
  reflexivity.
Qed.

Lemma X6_witness :
  let c0 := new_ObjectContainer None None in
  let c := put c0 "k" VUndefined in
  assigns_own (data c0) (convertKey c0 "k") = true /\
  forget c "k" = c /\
  In "k" (keys (forget c "k")) /\
  empty (forget c "k") = false.
Proof.
  split; [reflexivity |].
  apply (X6_forget_keeps_undefined_entry
           (new_ObjectContainer None None) "k").
  reflexivity.
Defined.

(** X7. Putting a value other than [undefined] under a key the mapping
    does not hold (and that the assignment stores as an own property), then
    forgetting that key, gives back the container as it was, key order
    and prototype included. *)
Theorem X7_put_then_forget_restores
  (this : ObjectContainer) (key : string) (value : Value) :
  assigns_own (data this) (convertKey this key) = true ->
  ~ In (convertKey this key) (keys this) ->
  value <> VUndefined ->
  forget (put this key value) key = this.
Proof.
  intros Ha Hfresh Hdef.
  assert (Hhas : has (put this key value) key VUndefined = true).
  { rewrite has_key_only, stored_put_same by exact Ha. simpl.
    rewrite convertValue_is_undefined.
    apply is_undefined_false in Hdef. now rewrite Hdef. }
  rewrite forget_present by exact Hhas.
  rewrite convertKey_put, data_put.
  rewrite obj_delete_set_fresh by assumption.
  now destruct this.
Qed.

Lemma X7_witness :
  let c := put (put (new_ObjectContainer None (Some both_on)) "b" (VNum 1))
               "7" (VNum 2) in
  assigns_own (data c) (convertKey c "3") = true /\
  ~ In (convertKey c "3") (keys c) /\
  VStr "X" <> VUndefined /\
  forget (put c "3" (VStr "X")) "3" = c.
Proof.
  assert (H1 : ~ In "3" ["7"; "b"]).
  { simpl. intros [H | [H | []]]; discriminate. }
  split; [reflexivity |]. split; [exact H1 |]. split; [discriminate |].
  apply (X7_put_then_forget_restores
           (put (put (new_ObjectContainer None (Some both_on)) "b" (VNum 1))
                "7" (VNum 2)) "3" (VStr "X")).
  - reflexivity.
  - exact H1.
  - discriminate.
Defined.

(** X8. After [clear()] the store is a fresh [{}]: the container is
    [empty()], [keys()] and [values()] are empty; for every key that is not
    the name of a property of [Object.prototype], [has] is false, [get]
    answers the default, and, the configuration being kept, a following
    [put(k, v)] yields exactly the one entry normalised [k], normalised
    [v]. *)
Theorem X8_clear_empties
  (this : ObjectContainer) (key : string) (v d value : Value) :
  obj_inherits (plain []) (convertKey this key) = false ->
  empty (clear this) = true /\
  keys (clear this) = [] /\
  values (clear this) = [] /\
  items (clear this) = plain [] /\
  has (clear this) key v = false /\
  get (clear this) key d =
    Val (match d with VUndefined => VNull | _ => d end) /\
  items (put (clear this) key value) =
    plain [(convertKey this key, convertValue this value)].
Proof.
  intros Hinh.
  assert (Hnone : stored (clear this) key = Val VUndefined).
  { unfold stored. cbn [data clear].
    change (convertKey (clear this) key) with (convertKey this key).
    rewrite obj_get_not_own by reflexivity.
    unfold obj_inherits in Hinh. apply negb_false_iff in Hinh.
    now apply undefined_read_true. }
  split; [reflexivity |]. split; [reflexivity |]. split; [reflexivity |].
  split; [reflexivity |]. split; [| split].
  - rewrite has_unfold, Hnone. reflexivity.
  - rewrite get_unfold, Hnone. reflexivity.
  - unfold items. rewrite data_put.
    change (convertKey (clear this) key) with (convertKey this key).
    change (convertValue (clear this) value) with (convertValue this value).
    assert (Hk : convertKey this key <> "__proto__").
    { intros E. rewrite E in Hinh. discriminate. }
    unfold obj_set. rewrite assigns_own_other by exact Hk.
    cbn [data clear props proto plain]. unfold own_set. simpl.
    now destruct (array_index (convertKey this key)).
Qed.

Lemma X8_witness :
  let c := put (new_ObjectContainer None (Some both_on)) "old" (VNum 1) in
  obj_inherits (plain []) (convertKey c "New") = false /\
  empty (clear c) = true /\
  has (clear c) "old" VUndefined = false /\
  items (put (clear c) "New" (VStr "V")) = plain [("new", VStr "v")].
Proof.
  split; [reflexivity |].
  pose proof (X8_clear_empties
                (put (new_ObjectContainer None (Some both_on)) "old" (VNum 1))
                "New" VUndefined VUndefined (VStr "V") eq_refl)
    as [He [_ [_ [_ [_ [_ Hput]]]]]].
  split; [exact He |]. split; [reflexivity | exact Hput].
Defined.

(** X9. After [put(k, v)] on a key that the assignment stores as an own
    property, the container is never [empty()], not even for [v]
    undefined; its keys are the former keys and the normalised [k]. *)
Theorem X9_put_makes_nonempty
  (this : ObjectContainer) (key k' : string) (value : Value) :
  assigns_own (data this) (convertKey this key) = true ->
  empty (put this key value) = false /\
  (In k' (keys (put this key value)) <->
   k' = convertKey this key \/ In k' (keys this)).
Proof.
  intros Ha.
  assert (Hkeys : forall x, In x (keys (put this key value)) <->
                            x = convertKey this key \/ In x (keys this)).
  { intros x. unfold keys. rewrite data_put.
    now apply obj_keys_set_assigned. }
  split; [| apply Hkeys].
  assert (Hin : In (convertKey this key) (keys (put this key value))).
  { apply Hkeys. now left. }
  unfold empty. destruct (keys (put this key value)); [destruct Hin |].
  reflexivity.
Qed.

Lemma X9_witness :
  let c := new_ObjectContainer None None in
  assigns_own (data c) (convertKey c "k") = true /\
  empty c = true /\
  empty (put c "k" VUndefined) = false /\
  (In "k" (keys (put c "k" VUndefined)) <-> "k" = "k" \/ In "k" (keys c)).
Proof.
  split; [reflexivity |]. split; [reflexivity |].
  apply (X9_put_makes_nonempty
           (new_ObjectContainer None None) "k" "k" VUndefined).
  reflexivity.
Defined.

(* ------------------------------------------------------------------ *)
(** ** Further properties: queries *)

(** X10. [has(k, v)] is true right after [put(k, v)], for every key that
    the assignment stores as an own property and every value other than
    [undefined] (which asks for presence only) and [NaN] (which [===] never
    matches): value normalisation is the same on both sides. *)
Theorem X10_has_value_after_put
  (this : ObjectContainer) (key : string) (value : Value) :
  assigns_own (data this) (convertKey this key) = true ->
  value <> VUndefined ->
  value <> VNaN ->
  has (put this key value) key value = true.
Proof.
  intros Ha Hdef Hnan.
  rewrite has_unfold, stored_put_same by exact Ha.
  rewrite convertValue_put. simpl.
  rewrite convertValue_is_undefined.
  apply is_undefined_false in Hdef. rewrite Hdef. simpl.
  apply strict_eq_refl. intros H. now apply convertValue_nan in H.
Qed.

Lemma X10_witness :
  let c := new_ObjectContainer None (Some both_on) in
  assigns_own (data c) (convertKey c "Foo") = true /\
  VStr "Bar" <> VUndefined /\
  VStr "Bar" <> VNaN /\
  has (put c "Foo" (VStr "Bar")) "Foo" (VStr "Bar") = true.
Proof.
  split; [reflexivity |]. split; [discriminate |]. split; [discriminate |].
  apply (X10_has_value_after_put
           (new_ObjectContainer None (Some both_on)) "Foo" (VStr "Bar"));
    [reflexivity | discriminate | discriminate].
Defined.

(** X11. [has(k, NaN)] is false on every container, also right after
    [put(k, NaN)]: the comparison is [===]. *)
Theorem X11_has_never_matches_nan (this : ObjectContainer) (key : string) :
  has this key VNaN = false /\
  has (put this key VNaN) key VNaN = false /\
  has (put this key VNaN) key VUndefined = true.
Proof.
  assert (Hc : forall c, convertValue c VNaN = VNaN).
  { intros c. unfold convertValue.
    now destruct (convertAllValuesToLowerCase (config c)). }
  assert (Hnan : forall c k, has c k VNaN = false).
  { intros c k. rewrite has_unfold, Hc. simpl.
    destruct (stored c k) as [x | |]; simpl;
      [destruct x |idtac |idtac]; reflexivity. }
  repeat split; try apply Hnan.
  rewrite has_key_only, stored_put, Hc.
  now rewrite obj_get_set_defined.
Qed.

(** X12. When [has(k, v)] is true for a [v] other than [undefined], the
    key is present for [has(k)], the key reads as the normalised [v], and
    [get(k, d)] returns it unless it is [null], in which case the default
    is returned. *)
Theorem X12_has_value_means_stored
  (this : ObjectContainer) (key : string) (v d : Value) :
  v <> VUndefined ->
  has this key v = true ->
  has this key VUndefined = true /\
  obj_get (items this) (convertKey this key) = Val (convertValue this v) /\
  get this key d =
    Val (match convertValue this v with
         | VNull => match d with VUndefined => VNull | _ => d end
         | w => w
         end).
Proof.
  intros Hdef. rewrite !has_unfold, get_unfold.
  apply is_undefined_false in Hdef. rewrite Hdef. simpl.
  intros H. apply andb_true_iff in H. destruct H as [Hpres Heq].
  assert (Hs : stored this key = Val (convertValue this v)).
  { destruct (stored this key) as [x | |]; simpl in Heq; try discriminate.
    apply strict_eq_eq in Heq. now subst. }
  rewrite Hpres. split; [now rewrite andb_true_r |].
  split; [exact Hs |].
  rewrite Hs in *. simpl in Hpres.
  destruct (convertValue this v); try reflexivity; discriminate.
Qed.

Lemma X12_witness :
  let c := put (new_ObjectContainer None (Some values_on)) "k" (VStr "Abc") in
  VStr "ABC" <> VUndefined /\
  has c "k" (VStr "ABC") = true /\
  has c "k" VUndefined = true /\
  obj_get (items c) (convertKey c "k") = Val (VStr "abc") /\
  get c "k" (VNum 0) = Val (VStr "abc").
Proof.
  split; [discriminate |]. split; [reflexivity |].
  apply (X12_has_value_means_stored
           (put (new_ObjectContainer None (Some values_on)) "k" (VStr "Abc"))
           "k" (VStr "ABC") (VNum 0)).
  - discriminate.
  - reflexivity.
Defined.

(** X13. [get] never returns [undefined]: a key that reads as [undefined]
    gives way to the default, and an [undefined] default is replaced by
    [null]. *)
Theorem X13_get_never_undefined
  (this : ObjectContainer) (key : string) (d : Value) :
  undefined_read (get this key d) = false.
Proof.
  rewrite get_unfold.
  destruct (stored this key) as [x | |]; [| reflexivity | reflexivity].
  destruct x; destruct d; reflexivity.
Qed.

(** X14. [get] agrees with [has] on absence: when [has(k)] is false, also
    for an entry that holds [undefined], [get(k, d)] answers the default. *)
Theorem X14_get_default_when_has_false
  (this : ObjectContainer) (key : string) (d : Value) :
  has this key VUndefined = false ->
  get this key d = Val (match d with VUndefined => VNull | _ => d end).
Proof.
  rewrite has_key_only, get_unfold.
  intros H. apply negb_false_iff, undefined_read_true in H.
  now rewrite H.
Qed.

Lemma X14_witness :
  let c := put (new_ObjectContainer None None) "k" VUndefined in
  has c "k" VUndefined = false /\
  keys c = ["k"] /\
  get c "k" (VNum 5) = Val (VNum 5).
Proof.
  split; [reflexivity |]. split; [reflexivity |].
  apply (X14_get_default_when_has_false
           (put (new_ObjectContainer None None) "k" VUndefined)
           "k" (VNum 5)).
  reflexivity.
Defined.

(** X15. [putIfNotExists(k, v)] is [put(k, v)] guarded by [has(k)]: it
    normalises key and value once more before calling [put], and the second
    normalisation changes nothing. *)
Theorem X15_putIfNotExists_is_guarded_put
  (this : ObjectContainer) (key : string) (value : Value) :
  putIfNotExists this key value =
  if has this key VUndefined then (this, false)
  else (put this key value, true).
Proof.
  unfold putIfNotExists.
  destruct (has this key VUndefined); [reflexivity |].
  now rewrite put_normalised.
Qed.

(** X16. Every method works on the normalised key and value: handing
    [has], [get], [put] or [forget] a key or value that is already
    normalised gives the same answer and the same container. *)
Theorem X16_normalised_arguments
  (this : ObjectContainer) (key : string) (value d : Value) :
  has this (convertKey this key) (convertValue this value) =
    has this key value /\
  get this (convertKey this key) d = get this key d /\
  put this (convertKey this key) (convertValue this value) =
    put this key value /\
  forget this (convertKey this key) = forget this key.
Proof.
  assert (Hs : stored this (convertKey this key) = stored this key).
  { unfold stored. now rewrite convertKey_idem. }
  assert (Hh : forall v,
             has this (convertKey this key) v = has this key v).
  { intros v. now rewrite !has_unfold, Hs. }
  repeat split.
  - rewrite Hh. rewrite !has_unfold.
    now rewrite convertValue_idem, convertValue_is_undefined.
  - now rewrite !get_unfold, Hs.
  - apply put_normalised.
  - unfold forget. now rewrite Hh, convertKey_idem.
Qed.

(* ------------------------------------------------------------------ *)
(** ** Further properties: construction, normalisation pass, populate *)

Section ConstructionLemmas.

Lemma config_put_loop
  (o : JSObject) (ks : list string) (c : ObjectContainer) :
  config (fold_left (fun c k => put c k (obj_get_own o k)) ks c) = config c.
Proof.
  revert c. induction ks as [| a ks IH]; simpl; intros c.
  - reflexivity.
  - now rewrite IH.
Qed.

(** Putting the entries of [this] one by one into a container of the same
    configuration fills it the way the normalisation loop does. *)
Lemma put_loop_is_prepareData_loop
  (this : ObjectContainer) (ks : list string) (c : ObjectContainer) :
  config c = config this ->
  fold_left (fun c k => put c k (obj_get_own (data this) k)) ks c =
  {| data := fold_left (prepareData_body this) ks (data c);
     config := config this |}.
Proof.
  revert c. induction ks as [| a ks IH]; simpl; intros c Hc.
  - destruct c. simpl in *. now subst.
  - rewrite IH by exact Hc. f_equal. f_equal.
    rewrite prepareData_body_normalises. cbn [data put].
    unfold convertKey, convertValue. now rewrite Hc.
Qed.

(** The constructor is the normalisation pass over the initial object
    under the configuration it computes. *)
Lemma new_ObjectContainer_unfold
  (initial : option JSObject) (fk fv : option bool) :
  new_ObjectContainer initial
    (Some {| argKeysToLowerCase := fk; argValuesToLowerCase := fv |}) =
  prepareData
    {| data := match initial with Some o => o | None => plain [] end;
       config := {| convertAllKeysToLowerCase := truthy fk;
                    convertAllValuesToLowerCase := truthy fv |} |}.
Proof.
  unfold new_ObjectContainer. simpl.
  now destruct (truthy fk), (truthy fv).
Qed.


End ConstructionLemmas.

(** X17. The constructor sets each flag of [config] to the truthiness of
    the flag it was given (unset and [false] both give [false]); without an
    initial object the container starts empty under every configuration. *)
Theorem X17_constructor_config
  (initial : option JSObject) (fk fv : option bool) :
  let conf := {| argKeysToLowerCase := fk; argValuesToLowerCase := fv |} in
  config (new_ObjectContainer initial (Some conf)) =
    {| convertAllKeysToLowerCase := truthy fk;
       convertAllValuesToLowerCase := truthy fv |} /\
  items (new_ObjectContainer None (Some conf)) = plain [] /\
  empty (new_ObjectContainer None (Some conf)) = true.
Proof.
  cbv zeta. rewrite !new_ObjectContainer_unfold.
  repeat split.
  - now rewrite config_prepareData.
  - unfold items, prepareData. simpl.
    now destruct (truthy fk), (truthy fv).
  - unfold empty, keys, prepareData. simpl.
    now destruct (truthy fk), (truthy fv).
Qed.

(** X18. With at least one flag set, constructing a container from an
    initial object is the same as constructing it empty and calling [put]
    for each initial entry, in enumeration order. *)
Theorem X18_construction_is_a_sequence_of_puts
  (o : JSObject) (fk fv : option bool) :
  truthy fk || truthy fv = true ->
  let conf := {| argKeysToLowerCase := fk; argValuesToLowerCase := fv |} in
  new_ObjectContainer (Some o) (Some conf) =
  fold_left (fun c k => put c k (obj_get_own o k)) (obj_keys o)
            (new_ObjectContainer None (Some conf)).
Proof.
  intros Hflag. cbv zeta. rewrite !new_ObjectContainer_unfold.
  set (cfg := {| convertAllKeysToLowerCase := truthy fk;
                 convertAllValuesToLowerCase := truthy fv |}).
  assert (Hpass : forall d,
             prepareData {| data := d; config := cfg |} =
             {| data := fold_left
                          (prepareData_body {| data := d; config := cfg |})
                          (obj_keys d) (plain []);
                config := cfg |}).
  { intros d. unfold prepareData, cfg. simpl.
    destruct (truthy fk), (truthy fv); try reflexivity. discriminate. }
  rewrite !Hpass. simpl.
  now rewrite (put_loop_is_prepareData_loop {| data := o; config := cfg |}).
Qed.

Lemma X18_witness :
  let o := plain [("Foo", VStr "Bar"); ("foo", VNum 2); ("X", VStr "Y")] in
  truthy (Some true) || truthy None = true /\
  new_ObjectContainer (Some o) (Some (mkConfigurationArg (Some true) None)) =
  fold_left (fun c k => put c k (obj_get_own o k)) (obj_keys o)
            (new_ObjectContainer None
               (Some (mkConfigurationArg (Some true) None))).
Proof.
  split; [reflexivity |].
  apply (X18_construction_is_a_sequence_of_puts
           (plain [("Foo", VStr "Bar"); ("foo", VNum 2); ("X", VStr "Y")])
           (Some true) None).
  reflexivity.
Defined.

(** X19. From construction on, any sequence of calls that does not
    contain [populate] keeps both invariants of the mapping: with
    [convertAllKeysToLowerCase] every key is lower-case, and with
    [convertAllValuesToLowerCase] every string value is lower-case. *)
Theorem X19_invariants_without_populate
  (initial : option JSObject) (configuration : option ConfigurationArg)
  (ops : list Op) :
  forallb (fun op => negb (is_populate op)) ops = true ->
  let final := fst (run (new_ObjectContainer initial configuration) ops) in
  (convertAllKeysToLowerCase (config final) = true ->
   keys_lowercase (items final) = true) /\
  (convertAllValuesToLowerCase (config final) = true ->
   values_lowercase (items final) = true).
Proof.
  intros Hops. cbv zeta.
  apply (invariants_run ops _ Hops).
  - apply keys_invariant_new.
  - unfold new_ObjectContainer. apply values_invariant_prepareData.
Qed.

Lemma X19_witness :
  let ops := [OpPut "A" (VStr "B"); OpPutIfNotExists "C" (VStr "D");
              OpForget "foo"; OpPrepareData; OpPut "E" (VNum 1)] in
  let final :=
    fst (run (new_ObjectContainer (Some (plain [("Foo", VStr "Bar")]))
                                  (Some both_on)) ops) in
  forallb (fun op => negb (is_populate op)) ops = true /\
  keys_lowercase (items final) = true /\
  values_lowercase (items final) = true.
Proof.
  split; [reflexivity |].
  pose proof (X19_invariants_without_populate
                (Some (plain [("Foo", VStr "Bar")])) (Some both_on)
                [OpPut "A" (VStr "B"); OpPutIfNotExists "C" (VStr "D");
                 OpForget "foo"; OpPrepareData; OpPut "E" (VNum 1)]
                eq_refl) as [Hk Hv].
  split; [apply Hk | apply Hv]; reflexivity.
Defined.

(** X20. Constructed with lower-case values only from an initial object
    that has no property named [__proto__], the container holds the keys
    of the initial object, each bound to its initial value with strings
    lower-cased. *)
Theorem X20_construction_lowercases_values
  (o : JSObject) (fk : option bool) (k : string) :
  truthy fk = false ->
  ~ In "__proto__" (obj_keys o) ->
  let c := new_ObjectContainer (Some o) (Some (values_only fk)) in
  obj_get_own (items c) k = lower_value (obj_get_own o k) /\
  (In k (keys c) <-> In k (obj_keys o)).
Proof.
  intros Hk Hp. cbv zeta.
  unfold values_only. rewrite new_ObjectContainer_unfold. rewrite Hk.
  unfold items, keys, prepareData. simpl.
  rewrite (fold_left_pointwise _
             (fun acc a => obj_set acc a (lower_value (obj_get_own o a)))).
  2:{ intros acc a. unfold prepareData_body. simpl.
      now destruct (obj_get_own o a). }
  assert (Hne : forall a, In a (obj_keys o) -> a <> "__proto__").
  { intros a Ha ->. contradiction. }
  split.
  - destruct (in_dec string_dec k (obj_keys o)) as [Hin | Hout].
    + apply (write_loop_own_visited
               (fun a => lower_value (obj_get_own o a))); auto.
    + rewrite (write_loop_own_skipped (fun a => a)).
      * rewrite (obj_get_own_absent o k) by now apply obj_has_own_false.
        reflexivity.
      * intros a Ha ->. contradiction.
  - split.
    + intros H. apply (write_loop_keys (fun a => a)) in H.
      destruct H as [[a [Ha <-]] | []]. exact Ha.
    + intros Hin.
      apply (write_loop_key_written (fun a => a)); auto.
Qed.

Lemma X20_witness :
  let o := plain [("Foo", VStr "Bar"); ("n", VNum 1)] in
  let c := new_ObjectContainer (Some o) (Some (values_only None)) in
  truthy None = false /\
  ~ In "__proto__" (obj_keys o) /\
  obj_get_own (items c) "Foo" = VStr "bar" /\
  (In "Foo" (keys c) <-> In "Foo" ["Foo"; "n"]).
Proof.
  assert (H : ~ In "__proto__" ["Foo"; "n"]).
  { simpl. intros [H | [H | []]]; discriminate. }
  split; [reflexivity |]. split; [exact H |].
  apply (X20_construction_lowercases_values
           (plain [("Foo", VStr "Bar"); ("n", VNum 1)]) None "Foo").
  - reflexivity.
  - exact H.
Defined.

(** X21. Constructed with lower-case keys, an initial entry whose
    lower-cased key is not [__proto__] is found under its lower-cased key
    with its normalised value, provided no later entry of the initial
    object has the same lower-cased key: of entries that collide, the last
    one enumerated wins. *)
Theorem X21_construction_last_key_wins
  (o : JSObject) (fk fv : option bool)
  (before after : list string) (K : string) :
  truthy fk = true ->
  toLowerCase K <> "__proto__" ->
  obj_keys o = (before ++ K :: after)%list ->
  (forall b, In b after -> toLowerCase b <> toLowerCase K) ->
  let conf := {| argKeysToLowerCase := fk; argValuesToLowerCase := fv |} in
  let c := new_ObjectContainer (Some o) (Some conf) in
  obj_get (items c) (toLowerCase K) =
    Val (convertValue c (obj_get_own o K)) /\
  In (toLowerCase K) (keys c).
Proof.
  intros Hk Hproto Hsplit Hafter. cbv zeta.
  rewrite new_ObjectContainer_unfold. rewrite Hk.
  set (R := {| data := o;
               config := {| convertAllKeysToLowerCase := true;
                            convertAllValuesToLowerCase := truthy fv |} |}).
  assert (Hnew : prepareData R =
                 {| data := fold_left (prepareData_body R) (obj_keys o)
                                      (plain []);
                    config := config R |}).
  { unfold prepareData, R. simpl. now rewrite andb_false_r. }
  rewrite Hnew. unfold items, keys. cbn [data].
  rewrite prepareData_loop_normalises.
  change (fun a : string => convertKey R a) with toLowerCase.
  assert (Hin : In (toLowerCase K)
                   (obj_keys
                      (fold_left
                         (fun o0 a =>
                            obj_set o0 (toLowerCase a)
                                    (convertValue R (obj_get_own (data R) a)))
                         (obj_keys o) (plain [])))).
  { apply (write_loop_key_written toLowerCase); [| exact Hproto].
    rewrite Hsplit. apply in_or_app. right. now left. }
  split; [| exact Hin].
  rewrite obj_get_own_read by now apply obj_has_own_In.
  f_equal. rewrite Hsplit.
  now apply (write_loop_own_last toLowerCase
               (fun a => convertValue R (obj_get_own (data R) a))).
Qed.

Lemma X21_witness :
  let o := plain [("Foo", VNum 1); ("FOO", VStr "Two"); ("bar", VNum 3)] in
  let c := new_ObjectContainer (Some o) (Some both_on) in
  truthy (Some true) = true /\
  toLowerCase "FOO" <> "__proto__" /\
  obj_keys o = (["Foo"] ++ "FOO" :: ["bar"])%list /\
  obj_get (items c) "foo" = Val (VStr "two") /\
  In "foo" (keys c).
Proof.
  split; [reflexivity |]. split; [discriminate |]. split; [reflexivity |].
  apply (X21_construction_last_key_wins
           (plain [("Foo", VNum 1); ("FOO", VStr "Two"); ("bar", VNum 3)])
           (Some true) (Some true) ["Foo"] ["bar"] "FOO").
  - reflexivity.
  - discriminate.
  - reflexivity.
  - intros b [<- | []]. discriminate.
Defined.

(** X22. Round trip: for a well-formed argument [m] that has no property
    named [__proto__], after [populate(m)] the store is a plain object with
    the properties of [m]: [keys()] and [values()] are its keys and values,
    in the same order and whatever the flags; the configuration is kept. *)
Theorem X22_populate_roundtrip (this : ObjectContainer) (m : JSObject) :
  obj_canonical m = true ->
  ~ In "__proto__" (obj_keys m) ->
  items (populate this m) = plain (props m) /\
  keys (populate this m) = obj_keys m /\
  values (populate this m) = obj_values m /\
  config (populate this m) = config this.
Proof.
  intros Hc Hp.
  assert (H : data (populate this m) = plain (props m))
    by now apply populate_roundtrip.
  unfold items, keys, values. rewrite H. auto.
Qed.

Lemma X22_witness :
  let m := plain [("2", VNum 0); ("10", VStr "Ten"); ("Foo", VStr "Bar");
                  ("b", VNull)] in
  let c := put (new_ObjectContainer None (Some both_on)) "old" (VNum 1) in
  obj_canonical m = true /\
  ~ In "__proto__" (obj_keys m) /\
  items (populate c m) = m /\
  keys (populate c m) = ["2"; "10"; "Foo"; "b"].
Proof.
  assert (Hp : ~ In "__proto__" ["2"; "10"; "Foo"; "b"]).
  { simpl. intros [H | [H | [H | [H | []]]]]; discriminate. }
  split; [reflexivity |]. split; [exact Hp |].
  pose proof (X22_populate_roundtrip
                (put (new_ObjectContainer None (Some both_on)) "old" (VNum 1))
                (plain [("2", VNum 0); ("10", VStr "Ten");
                        ("Foo", VStr "Bar"); ("b", VNull)])
                eq_refl Hp) as [Hitems [Hkeys _]].
  split; [exact Hitems | exact Hkeys].
Defined.



(** X24. [keys()] never lists a key twice and keeps enumeration order:
    started from a well-formed initial object, the mapping is a well-formed
    property list after every sequence of calls, whatever is passed to
    [populate] and although lower-casing can make initial keys collide. *)
Theorem X24_keys_never_repeat
  (o : JSObject) (configuration : option ConfigurationArg) (ops : list Op) :
  obj_canonical o = true ->
  let final := fst (run (new_ObjectContainer (Some o) configuration) ops) in
  obj_canonical (items final) = true /\ NoDup (keys final).
Proof.
  intros Hc. cbv zeta.
  assert (H : obj_canonical
                (data (fst (run (new_ObjectContainer (Some o) configuration)
                                ops))) = true).
  { apply obj_canonical_run. unfold new_ObjectContainer.
    now apply obj_canonical_prepareData. }
  split; [exact H |]. now apply canonical_keys_NoDup.
Qed.

Lemma X24_witness :
  let o := plain [("1", VNum 1); ("Foo", VNum 2); ("foo", VNum 3)] in
  let ops := [OpPut "FOO" (VNum 4); OpPut "0" VNull; OpForget "1";
              OpPut "__proto__" VNull; OpPut "__PROTO__" (VNum 5);
              OpPopulate (plain [("x", VNum 1); ("x", VNum 2)]);
              OpPut "X" VNull] in
  let final := fst (run (new_ObjectContainer (Some o) (Some keys_on)) ops) in
  obj_canonical o = true /\
  obj_canonical (items final) = true /\ NoDup (keys final).
Proof.
  split; [reflexivity |].
  apply (X24_keys_never_repeat
           (plain [("1", VNum 1); ("Foo", VNum 2); ("foo", VNum 3)])
           (Some keys_on)
           [OpPut "FOO" (VNum 4); OpPut "0" VNull; OpForget "1";
            OpPut "__proto__" VNull; OpPut "__PROTO__" (VNum 5);
            OpPopulate (plain [("x", VNum 1); ("x", VNum 2)]);
            OpPut "X" VNull]).
  reflexivity.
Defined.

(** X25. The normalisation pass is idempotent on a container none of
    whose keys normalises to [__proto__]: calling [prepareData] again
    changes nothing; and when no key of the initial object normalises to
    [__proto__], [prepareData] leaves the constructed container as it is,
    and constructing a container from its [items()] with the same
    configuration gives an equal container. *)
Theorem X25_prepareData_idempotent
  (this : ObjectContainer)
  (o : JSObject) (fk fv : option bool) :
  (forall k, In k (keys this) -> convertKey this k <> "__proto__") ->
  (forall k, In k (obj_keys o) ->
             (if truthy fk then toLowerCase k else k) <> "__proto__") ->
  prepareData (prepareData this) = prepareData this /\
  (let conf := {| argKeysToLowerCase := fk; argValuesToLowerCase := fv |} in
   let c := new_ObjectContainer (Some o) (Some conf) in
   prepareData c = c /\
   new_ObjectContainer (Some (items c)) (Some conf) = c).
Proof.
  intros Hthis Ho.
  split; [now apply prepareData_twice |]. cbv zeta.
  rewrite !new_ObjectContainer_unfold.
  set (cfg := {| convertAllKeysToLowerCase := truthy fk;
                 convertAllValuesToLowerCase := truthy fv |}).
  assert (Hfix : prepareData (prepareData {| data := o; config := cfg |}) =
                 prepareData {| data := o; config := cfg |}).
  { apply prepareData_twice. exact Ho. }
  split; [exact Hfix |].
  assert (Hcfg : config (prepareData {| data := o; config := cfg |}) = cfg)
    by apply config_prepareData.
  destruct (prepareData {| data := o; config := cfg |}) as [d cf].
  cbn [config] in Hcfg. subst cf. exact Hfix.
Qed.

Lemma X25_witness :
  let this := populate (new_ObjectContainer None (Some both_on))
                       (plain [("Foo", VStr "Bar"); ("a", VNum 1)]) in
  let o := plain [("Foo", VStr "Bar"); ("FOO", VNum 2); ("3", VNull)] in
  let c := new_ObjectContainer (Some o) (Some both_on) in
  (forall k, In k (keys this) -> convertKey this k <> "__proto__") /\
  keys this = ["Foo"; "a"] /\
  keys (prepareData this) = ["foo"; "a"] /\
  prepareData (prepareData this) = prepareData this /\
  prepareData c = c /\
  new_ObjectContainer (Some (items c)) (Some both_on) = c.
Proof.
  assert (H1 : forall k, In k ["Foo"; "a"] ->
                         toLowerCase k <> "__proto__").
  { intros k [<- | [<- | []]]; discriminate. }
  assert (H2 : forall k, In k ["Foo"; "FOO"; "3"] ->
                         toLowerCase k <> "__proto__").
  { intros k [<- | [<- | [<- | []]]]; discriminate. }
  split; [exact H1 |]. split; [reflexivity |]. split; [reflexivity |].
  pose proof (X25_prepareData_idempotent
                (populate (new_ObjectContainer None (Some both_on))
                          (plain [("Foo", VStr "Bar"); ("a", VNum 1)]))
                (plain [("Foo", VStr "Bar"); ("FOO", VNum 2); ("3", VNull)])
                (Some true) (Some true) H1 H2) as [Ha [Hb Hc]].
  split; [exact Ha |]. split; [exact Hb | exact Hc].
Defined.
